(** * nullsmtpd: the mail handler and its persistence step

    A shallow embedding of [nullsmtpd/nullsmtpd.py].  The handler class
    [NullSMTPDHandler] (constructor and [handle_DATA]) and the start-up
    part of [main] are written as functions in a state-and-exception
    monad over a world that holds the file system, the clock, the logger
    sink and the history of the file-system calls that went through.

    Python [str] values are represented by [string], read as the UTF-8
    encoding of the text, and [bytes] values are [list byte]; a file
    opened in text mode is taken to encode in UTF-8 and to write ["\n"]
    as one line feed, as on a POSIX system.  The operating system is an
    interface ([OS]); [posix] is a reference instance: a tree of
    directories and regular files without symbolic links or permissions,
    in which paths are resolved lexically. *)

From Stdlib Require Import Ascii String ZArith List.
From Stdlib Require Strings.Byte.
From stdpp Require Import base numbers option list gmap strings pretty.

Local Open Scope string_scope.
Local Open Scope list_scope.
Local Open Scope Z_scope.

Abbreviation byte := Corelib.Init.Byte.byte.

(** ** Python strings *)

(** [s.startswith("/")] and [s.endswith("/")], the two tests of
    [posixpath.join]. *)
Definition startswith_sep (s : string) : bool :=
  match s with
  | String "/" _ => true
  | _ => false
  end.

Fixpoint endswith_sep (s : string) : bool :=
  match s with
  | "" => false
  | String c "" => if decide (c = "/"%char) then true else false
  | String _ s' => endswith_sep s'
  end.

Fixpoint mem_char (c : ascii) (chars : string) : bool :=
  match chars with
  | "" => false
  | String d chars' => if decide (c = d) then true else mem_char c chars'
  end.

(** [s.lstrip(chars)]: drop the longest prefix made of characters of
    [chars]. *)
Fixpoint lstrip (chars s : string) : string :=
  match s with
  | "" => ""
  | String c s' => if mem_char c chars then lstrip chars s' else s
  end.

(** The string ["\n"]. *)
Definition LF : string := String "010"%char "".

(** [k] dots. *)
Fixpoint dots (k : nat) : string :=
  match k with
  | O => ""
  | S k' => String "." (dots k')
  end.

(** [s.split("/")]. *)
Fixpoint split_sep (s : string) : list string :=
  match s with
  | "" => [""]
  | String c s' =>
      if decide (c = "/"%char) then "" :: split_sep s'
      else match split_sep s' with
           | h :: t => String c h :: t
           | [] => [String c ""]
           end
  end.

(** No ["/"] in the string. *)
Definition no_sep (s : string) : bool := negb (mem_char "/" s).

(** ** [os.path.join] *)

Definition join_step (path b : string) : string :=
  if startswith_sep b then b
  else if (if decide (path = "") then true else endswith_sep path)
       then path +:+ b
       else path +:+ "/" +:+ b.

(** [os.path.join(a, *p)] of [posixpath]: an absolute component discards
    everything before it. *)
Definition os_path_join (a : string) (p : list string) : string :=
  fold_left join_step p a.

(** ** UTF-8 *)

Definition in_range (lo hi : N) (b : byte) : bool :=
  ((lo <=? Byte.to_N b) && (Byte.to_N b <=? hi))%N.

Definition is_cont (b : byte) : bool := in_range 0x80 0xBF b.

Definition seq2_ok (b0 b1 : byte) : bool :=
  in_range 0xC2 0xDF b0 && is_cont b1.

Definition seq3_ok (b0 b1 b2 : byte) : bool :=
  (in_range 0xE0 0xE0 b0 && in_range 0xA0 0xBF b1 && is_cont b2)
  || (in_range 0xE1 0xEC b0 && is_cont b1 && is_cont b2)
  || (in_range 0xED 0xED b0 && in_range 0x80 0x9F b1 && is_cont b2)
  || (in_range 0xEE 0xEF b0 && is_cont b1 && is_cont b2).

Definition seq4_ok (b0 b1 b2 b3 : byte) : bool :=
  (in_range 0xF0 0xF0 b0 && in_range 0x90 0xBF b1 && is_cont b2 && is_cont b3)
  || (in_range 0xF1 0xF3 b0 && is_cont b1 && is_cont b2 && is_cont b3)
  || (in_range 0xF4 0xF4 b0 && in_range 0x80 0x8F b1 && is_cont b2 && is_cont b3).

(** The strict UTF-8 decoder of [bytes.decode('utf-8')], as a validator:
    [None] when the bytes are well formed, otherwise the offset of the
    first ill-formed sequence (overlong forms, surrogates, code points
    above U+10FFFF and truncated sequences are ill formed). *)
Fixpoint utf8_check (pos : nat) (bs : list byte) : option nat :=
  match bs with
  | [] => None
  | b0 :: r0 =>
      if in_range 0x00 0x7F b0 then utf8_check (S pos) r0
      else
        match r0 with
        | [] => Some pos
        | b1 :: r1 =>
            if seq2_ok b0 b1 then utf8_check (S (S pos)) r1
            else
              match r1 with
              | [] => Some pos
              | b2 :: r2 =>
                  if seq3_ok b0 b1 b2 then utf8_check (S (S (S pos))) r2
                  else
                    match r2 with
                    | [] => Some pos
                    | b3 :: r3 =>
                        if seq4_ok b0 b1 b2 b3
                        then utf8_check (S (S (S (S pos)))) r3
                        else Some pos
                    end
              end
        end
  end.

(** ** Exceptions and dynamically typed values *)

Inductive errno :=
  | ENOENT | EACCES | EEXIST | ENOTDIR | EISDIR | ENOSPC | EIO
  | EINVAL | ENAMETOOLONG | EADDRINUSE.

Definition errno_code (e : errno) : Z :=
  match e with
  | ENOENT => 2 | EIO => 5 | EACCES => 13 | EEXIST => 17
  | ENOTDIR => 20 | EISDIR => 21 | ENOSPC => 28
  | EINVAL => 22 | ENAMETOOLONG => 36 | EADDRINUSE => 98
  end.

Definition strerror (e : errno) : string :=
  match e with
  | ENOENT => "No such file or directory"
  | EIO => "Input/output error"
  | EACCES => "Permission denied"
  | EEXIST => "File exists"
  | ENOTDIR => "Not a directory"
  | EISDIR => "Is a directory"
  | ENOSPC => "No space left on device"
  | EINVAL => "Invalid argument"
  | ENAMETOOLONG => "File name too long"
  | EADDRINUSE => "Address already in use"
  end.

(** [OSError e f] stands for the subclass Python picks from the errno
    ([FileExistsError] for [EEXIST], [FileNotFoundError] for [ENOENT],
    ...); [IOError] is an alias of [OSError].  [OSErrorUnnamed e] is an
    [OSError] whose [filename] is [None], as a failed write, a failed
    close or a failed bind raises it.  [OverflowError] is what binding a
    port outside [0..65535] raises. *)
Inductive exn :=
  | SystemExit (msg : string)
  | OSError (e : errno) (filename : string)
  | UnicodeDecodeError (start : nat)
  | OSErrorUnnamed (e : errno)
  | OverflowError (msg : string).

(** The quote [repr] puts around a string: a double quote when the
    string holds a single quote and no double quote, else a single
    quote. *)
Definition repr_quote (s : string) : ascii :=
  if mem_char "'" s && negb (mem_char "034" s) then "034"%char
  else "'"%char.

Definition hex_digit (n : N) : ascii :=
  match n with
  | 0 => "0" | 1 => "1" | 2 => "2" | 3 => "3" | 4 => "4" | 5 => "5"
  | 6 => "6" | 7 => "7" | 8 => "8" | 9 => "9" | 10 => "a" | 11 => "b"
  | 12 => "c" | 13 => "d" | 14 => "e" | _ => "f"
  end%char%N.

(** How [repr] writes one character inside the quotes [q]. *)
Definition repr_char (q c : ascii) : string :=
  if decide (c = "\"%char) then "\\"
  else if decide (c = q) then String "\" (String q "")
  else if decide (c = "010"%char) then "\n"
  else if decide (c = "013"%char) then "\r"
  else if decide (c = "009"%char) then "\t"
  else if ((N_of_ascii c <? 32) || (N_of_ascii c =? 127))%N
       then "\x" +:+ String (hex_digit (N_of_ascii c / 16))
                      (String (hex_digit (N_of_ascii c mod 16)) "")
       else String c "".

Fixpoint repr_chars (q : ascii) (s : string) : string :=
  match s with
  | "" => ""
  | String c s' => repr_char q c +:+ repr_chars q s'
  end.

(** [repr(s)] for a string; text outside ASCII is taken to be
    printable, which [repr] leaves as it is. *)
Definition py_repr (s : string) : string :=
  String (repr_quote s) (repr_chars (repr_quote s) s
                         +:+ String (repr_quote s) "").

(** [str(io_error)] for an error that has a file name. *)
Definition str_of_oserror (e : errno) (filename : string) : string :=
  "[Errno " +:+ pretty (errno_code e) +:+ "] " +:+ strerror e
  +:+ ": " +:+ py_repr filename.

(** The values the constructor can be handed for [mail_dir] and
    [output_messages]. *)
Inductive pyobj :=
  | PyNone
  | PyBool (b : bool)
  | PyInt (z : Z)
  | PyStr (s : string).

(** ["{}".format(v)]. *)
Definition py_format (v : pyobj) : string :=
  match v with
  | PyNone => "None"
  | PyBool true => "True"
  | PyBool false => "False"
  | PyInt z => pretty z
  | PyStr s => s
  end.

(** [v is True]. *)
Definition is_True (v : pyobj) : bool :=
  match v with
  | PyBool true => true
  | _ => false
  end.

(** ** The operating system interface

    The calls the module makes on the operating system, on paths that
    hold no NUL character (Python refuses the others before any call).
    [os_mkdir] and [open_append], the [open(p, 'a')], return the errno
    and leave the system as it was when they fail.  [write_close p text]
    is what the body and the end of [with open(p, 'a') as f:
    f.write(text)] do to the opened file: when the write or the close
    fails it returns the errno and the system as the failure left it.
    [os_listen host port] is [None] when the address can be bound, and
    otherwise the exception [Controller.start()] raises. *)
Class OS (FS : Type) := {
  os_path_isdir : string → FS → bool;
  os_mkdir : string → FS → errno + FS;
  open_append : string → FS → errno + FS;
  write_close : string → string → FS → errno * FS + FS;
  os_listen : string → Z → FS → option exn
}.

Inductive level := INFO | ERROR.

(** A file-system call that changed the system: a directory made, a text
    appended, or a file opened for append whose write then failed. *)
Inductive event :=
  | EvMkdir (path : string)
  | EvAppend (path : string) (text : string)
  | EvBroken (path : string) (text : string).


(** The appends of a history, in order. *)
Fixpoint appends (tr : list event) : list (string * string) :=
  match tr with
  | [] => []
  | EvMkdir _ :: tr' => appends tr'
  | EvBroken _ _ :: tr' => appends tr'
  | EvAppend p t :: tr' => (p, t) :: appends tr'
  end.

Record Envelope := {
  mail_from : string;
  rcpt_tos : list string;
  content : list byte
}.

Record NullSMTPDHandler := {
  mail_dir : string;
  print_messages : bool;
  file_extension : string
}.

(** The result of [_parse_args()]. *)
Record Namespace := {
  args_no_fork : bool;
  args_host : string;
  args_port : Z;
  args_mail_dir : string;
  args_file_extension : string
}.

(** ["{:d}.{:s}.{:s}".format(t, mail_from, file_extension)]. *)
Definition format_mail_file (t : Z) (sender ext : string) : string :=
  pretty t +:+ "." +:+ sender +:+ "." +:+ ext.

Section Program.
Context {FS : Type} `{!OS FS}.

(** The world a call runs in.  [clock n] is the value of
    [int(time.time())] at the [n]-th reading and [tick] counts the
    readings made; [log] is what the logger received and [trace] the
    file-system calls that went through, with the writes that failed
    once their file was open, both oldest first; [fork_pid] is
    what [os.fork()] returns in this process; [listening] is set once
    the controller has been started. *)
Record World := {
  fs : FS;
  clock : nat → Z;
  tick : nat;
  log : list (level * string);
  trace : list event;
  fork_pid : Z;
  listening : option (string * Z)
}.

Definition set_fs (f : FS) (w : World) : World :=
  {| fs := f; clock := clock w; tick := tick w; log := log w;
     trace := trace w; fork_pid := fork_pid w; listening := listening w |}.

Definition push_event (ev : event) (w : World) : World :=
  {| fs := fs w; clock := clock w; tick := tick w; log := log w;
     trace := trace w ++ [ev]; fork_pid := fork_pid w;
     listening := listening w |}.

Definition push_log (l : level) (msg : string) (w : World) : World :=
  {| fs := fs w; clock := clock w; tick := tick w;
     log := log w ++ [(l, msg)];
     trace := trace w; fork_pid := fork_pid w; listening := listening w |}.

Definition next_tick (w : World) : World :=
  {| fs := fs w; clock := clock w; tick := S (tick w); log := log w;
     trace := trace w; fork_pid := fork_pid w; listening := listening w |}.

Definition set_listening (a : string * Z) (w : World) : World :=
  {| fs := fs w; clock := clock w; tick := tick w; log := log w;
     trace := trace w; fork_pid := fork_pid w; listening := Some a |}.

(** State and exceptions: a computation returns a value or raises, and
    leaves a world either way. *)
Definition M (A : Type) : Type := World → (exn + A) * World.

Definition ret {A} (a : A) : M A := λ w, (inr a, w).

Definition raise {A} (e : exn) : M A := λ w, (inl e, w).

Definition bind {A B} (m : M A) (k : A → M B) : M B :=
  λ w, match m w with
       | (inl e, w') => (inl e, w')
       | (inr a, w') => k a w'
       end.

#[global] Instance M_ret : MRet M := @ret.
#[global] Instance M_bind : MBind M := λ A B k m, bind m k.

(** [for x in l: f x]. *)
Fixpoint for_each {A} (f : A → M unit) (l : list A) : M unit :=
  match l with
  | [] => ret tt
  | x :: l' => bind (f x) (λ _, for_each f l')
  end.

Definition logger_info (msg : string) : M unit :=
  λ w, (inr tt, push_log INFO msg w).

Definition logger_error (msg : string) : M unit :=
  λ w, (inr tt, push_log ERROR msg w).

(** [int(time.time())]. *)
Definition time_time_int : M Z :=
  λ w, (inr (clock w (tick w)), next_tick w).

Definition isdir (p : string) : M bool :=
  λ w, (inr (os_path_isdir p (fs w)), w).

Definition mkdir (p : string) : M unit :=
  λ w, match os_mkdir p (fs w) with
       | inl e => (inl (OSError e p), w)
       | inr f => (inr tt, push_event (EvMkdir p) (set_fs f w))
       end.

(** [with open(p, 'a') as f: f.write(text)]. *)
Definition append_text (p text : string) : M unit :=
  λ w, match open_append p (fs w) with
       | inl e => (inl (OSError e p), w)
       | inr f =>
           match write_close p text f with
           | inl (e, f') =>
               (inl (OSErrorUnnamed e),
                push_event (EvBroken p text) (set_fs f' w))
           | inr f' =>
               (inr tt, push_event (EvAppend p text) (set_fs f' w))
           end
       end.

Definition os_fork : M Z := λ w, (inr (fork_pid w), w).

(** [content.decode('utf-8')]. *)
Definition decode_utf8 (bs : list byte) : M string :=
  match utf8_check 0 bs with
  | Some i => raise (UnicodeDecodeError i)
  | None => ret (string_of_list_byte bs)
  end.

(** [Controller(handler, hostname, port).start()]. *)
Definition controller_start (h : NullSMTPDHandler) (host : string)
    (port : Z) : M unit :=
  λ w, match os_listen host port (fs w) with
       | Some e => (inl e, w)
       | None => (inr tt, set_listening (host, port) w)
       end.

(** [NullSMTPDHandler.__init__(self, logger, mail_dir, output_messages,
    file_extension)]; the logger is the world's sink. *)
Definition __init__ (mail_dir : pyobj) (output_messages : pyobj)
    (file_extension : string) : M NullSMTPDHandler :=
  match mail_dir with
  | PyStr dir =>
      d ← isdir dir;
      (if negb d
       then λ w, match mkdir dir w with
                 | (inl (OSError e f), w') =>
                     bind (logger_error (str_of_oserror e f))
                          (λ _, raise (OSError e f)) w'
                 | r => r
                 end
       else ret tt);;
      let ext := lstrip "." file_extension in
      logger_info ("Mail Directory: " +:+ dir);;
      logger_info ("File Extension: ." +:+ ext);;
      ret {| mail_dir := dir;
             print_messages := is_True output_messages;
             file_extension := ext |}
  | _ =>
      let msg := "Invalid mail_dir variable: " +:+ py_format mail_dir in
      logger_error msg;;
      raise (SystemExit msg)
  end.

(** The body of the loop over [rcpt_tos] in [handle_DATA]. *)
Definition handle_recipient (self : NullSMTPDHandler)
    (sender data recipient : string) : M unit :=
  logger_info ("Mail received for " +:+ recipient);;
  t ← time_time_int;
  let mail_file := format_mail_file t sender (file_extension self) in
  let mail_path := os_path_join (mail_dir self) [recipient; mail_file] in
  d ← isdir (os_path_join (mail_dir self) [recipient]);
  (if negb d then mkdir (os_path_join (mail_dir self) [recipient])
   else ret tt);;
  append_text mail_path (data +:+ LF);;
  if print_messages self then logger_info data else ret tt.

(** [NullSMTPDHandler.handle_DATA(self, _, __, envelope)]. *)
Definition handle_DATA (self : NullSMTPDHandler) (envelope : Envelope)
    : M string :=
  data ← decode_utf8 (content envelope);
  logger_info ("Incoming mail from " +:+ mail_from envelope);;
  for_each (handle_recipient self (mail_from envelope) data)
           (rcpt_tos envelope);;
  ret "250 OK".
End Program.

(** ** What a call is expected to do *)

Section Expected.
Context {FS : Type} `{!OS FS}.

(** The record of one recipient at clock reading [t]: where it goes and
    what is appended there. *)
Definition record_of (self : NullSMTPDHandler) (sender data : string)
    (t : Z) (recipient : string) : string * string :=
  (os_path_join (mail_dir self)
     [recipient; format_mail_file t sender (file_extension self)],
   data +:+ LF).

(** One record per entry of the recipient list, in the order of the
    list; the [i]-th recipient gets the [i]-th clock reading from
    [n]. *)
Fixpoint expected_appends (self : NullSMTPDHandler) (sender data : string)
    (clk : nat → Z) (n : nat) (rcpts : list string)
    : list (string * string) :=
  match rcpts with
  | [] => []
  | r :: rs =>
      record_of self sender data (clk n) r
      :: expected_appends self sender data clk (S n) rs
  end.

(** Performing the calls of a history, in order, on a file system. *)
Fixpoint replay (tr : list event) (f : FS) : option FS :=
  match tr with
  | [] => Some f
  | EvMkdir p :: tr' =>
      match os_mkdir p f with
      | inr f' => replay tr' f'
      | inl _ => None
      end
  | EvAppend p t :: tr' =>
      match open_append p f with
      | inr f1 =>
          match write_close p t f1 with
          | inr f' => replay tr' f'
          | inl _ => None
          end
      | inl _ => None
      end
  | EvBroken p t :: tr' =>
      match open_append p f with
      | inr f1 =>
          match write_close p t f1 with
          | inl (_, f') => replay tr' f'
          | inr _ => None
          end
      | inl _ => None
      end
  end.

(** [w'] is [w] after the file-system calls [evs]: the history grew by
    them, the file system is what they produce, and the clock is the
    same. *)
Definition after (w : @World FS) (evs : list event) (w' : @World FS)
    : Prop :=
  trace w' = trace w ++ evs
  ∧ replay evs (fs w) = Some (fs w')
  ∧ clock w' = clock w
  ∧ listening w' = listening w.

(** The loop of [handle_DATA] and the world it starts in, once the body
    has been decoded. *)
Definition deliver (self : NullSMTPDHandler) (sender data : string)
    (rcpts : list string) : M unit :=
  for_each (handle_recipient self sender data) rcpts.

(** The file-system calls the pass for one recipient can make. *)
Definition event_of (self : NullSMTPDHandler) (sender data : string)
    (recipient : string) (ev : event) : Prop :=
  ev = EvMkdir (os_path_join (mail_dir self) [recipient])
  ∨ (∃ t, ev = EvAppend
                 (os_path_join (mail_dir self)
                    [recipient;
                     format_mail_file t sender (file_extension self)])
                 (data +:+ LF))
  ∨ (∃ t, ev = EvBroken
                 (os_path_join (mail_dir self)
                    [recipient;
                     format_mail_file t sender (file_extension self)])
                 (data +:+ LF)).

Definition announced (sender : string) (w : @World FS) : @World FS :=
  push_log INFO ("Incoming mail from " +:+ sender) w.
End Expected.

(** ** Start-up *)

Section Main.
Context {FS : Type} `{!OS FS}.

(** [configure_logging] of the module [logger] and [__version__] of the
    module [version] are imported by the program: they are taken as
    parameters.  Setting up logging may raise and may change the file
    system (the log file); the logger it returns is the world's sink. *)
Variable configure_logging : string → bool → FS → exn + FS.
Variable version : string.

Definition run_configure_logging (dir : string) (out : bool) : M unit :=
  λ w, match configure_logging dir out (fs w) with
       | inl e => (inl e, w)
       | inr f => (inr tt, set_fs f w)
       end.

(** [main()], from the parsed arguments up to [controller.start()];
    the event loop that follows is not part of the model. *)
Definition main (args : Namespace) : M unit :=
  d ← isdir (args_mail_dir args);
  (if negb d then mkdir (args_mail_dir args) else ret tt);;
  (if negb (args_no_fork args)
   then pid ← os_fork;
        if decide (pid ≠ 0) then raise (SystemExit "Could not fork nullsmtpd")
        else ret tt
   else ret tt);;
  let host := args_host args in
  let port := args_port args in
  let output_messages := args_no_fork args in
  run_configure_logging (args_mail_dir args) output_messages;;
  let mail_dir := args_mail_dir args in
  let file_extension := args_file_extension args in
  logger_info ("Starting nullsmtpd " +:+ version +:+ " on " +:+ host
               +:+ ":" +:+ pretty port);;
  nullsmtpd ← __init__ (PyStr mail_dir) (PyBool output_messages)
                       file_extension;
  controller_start nullsmtpd host port.

(** What [main] does before it builds the handler. *)
Definition before_handler (args : Namespace) : M unit :=
  d ← isdir (args_mail_dir args);
  (if negb d then mkdir (args_mail_dir args) else ret tt);;
  (if negb (args_no_fork args)
   then pid ← os_fork;
        if decide (pid ≠ 0) then raise (SystemExit "Could not fork nullsmtpd")
        else ret tt
   else ret tt);;
  run_configure_logging (args_mail_dir args) (args_no_fork args);;
  logger_info ("Starting nullsmtpd " +:+ version +:+ " on "
               +:+ args_host args +:+ ":" +:+ pretty (args_port args)).
End Main.

(** ** A reference file system *)

Inductive node :=
  | Dir
  | File (data : list byte).

(** Nodes are keyed by their absolute path, a list of names from the
    root; the root itself is always a directory.  As for any [OS], the
    paths it is given hold no NUL character. *)
Record posix := {
  cwd : list string;
  nodes : gmap (list string) node
}.

Definition walk (cur : list string) (c : string) : list string :=
  if decide (c = "") then cur
  else if decide (c = ".") then cur
  else if decide (c = "..") then removelast cur
  else cur ++ [c].

(** The node a path string names, from the working directory [d]; [..]
    is taken lexically, as [os.path.normpath] takes it. *)
Definition resolve (d : list string) (s : string) : list string :=
  fold_left walk (split_sep s) (if startswith_sep s then [] else d).

Definition node_at (f : posix) (p : list string) : option node :=
  match p with
  | [] => Some Dir
  | _ => nodes f !! p
  end.

Definition set_node (p : list string) (n : node) (f : posix) : posix :=
  {| cwd := cwd f; nodes := <[p := n]> (nodes f) |}.

(** A path whose last component is empty, [.] or [..] names a
    directory. *)
Definition names_directory (s : string) : bool :=
  match last (split_sep s) with
  | Some c => if decide (c = "" ∨ c = "." ∨ c = "..") then true else false
  | None => true
  end.

(** A path of [PATH_MAX] bytes or more, or with a component of more
    than [NAME_MAX] bytes: the system refuses it with [ENAMETOOLONG]. *)
Definition too_long (s : string) : bool :=
  (4096 <=? String.length s)%nat
  || existsb (λ c, 255 <? String.length c)%nat (split_sep s).

Definition posix_isdir (s : string) (f : posix) : bool :=
  if decide (s = "") then false
  else if too_long s then false
  else match node_at f (resolve (cwd f) s) with
       | Some Dir => true
       | _ => false
       end.

(** Creating a node needs its parent to be a directory. *)
Definition create (p : list string) (n : node) (f : posix) : errno + posix :=
  match node_at f (removelast p) with
  | Some Dir => inr (set_node p n f)
  | Some (File _) => inl ENOTDIR
  | None => inl ENOENT
  end.

Definition posix_mkdir (s : string) (f : posix) : errno + posix :=
  if decide (s = "") then inl ENOENT
  else if too_long s then inl ENAMETOOLONG
  else match node_at f (resolve (cwd f) s) with
       | Some _ => inl EEXIST
       | None => create (resolve (cwd f) s) Dir f
       end.

(** Opening for append creates the file, empty, when it is absent and
    never truncates. *)
Definition posix_open (s : string) (f : posix) : errno + posix :=
  if decide (s = "") then inl ENOENT
  else if too_long s then inl ENAMETOOLONG
  else if names_directory s then inl EISDIR
  else match node_at f (resolve (cwd f) s) with
       | Some Dir => inl EISDIR
       | Some (File _) => inr f
       | None => create (resolve (cwd f) s) (File []) f
       end.

(** The text goes after what the file holds; the reference system has
    room for it, so that writing to a file that is open goes through. *)
Definition posix_write (s text : string) (f : posix)
    : errno * posix + posix :=
  match node_at f (resolve (cwd f) s) with
  | Some (File old) =>
      inr (set_node (resolve (cwd f) s)
                    (File (old ++ list_byte_of_string text)) f)
  | _ => inl (EIO, f)
  end.

(** The addresses of the reference system are free: a port of the valid
    range can be bound, and another port is refused as the socket
    module refuses it. *)
Definition posix_listen (host : string) (port : Z) (f : posix)
    : option exn :=
  if (0 <=? port) && (port <=? 65535) then None
  else Some (OverflowError "bind(): port must be 0-65535.").

(** Opening for append and writing, in one: the text goes after what the
    file holds, in a file that is created when it is absent. *)
Definition posix_append (s text : string) (f : posix) : errno + posix :=
  if decide (s = "") then inl ENOENT
  else if too_long s then inl ENAMETOOLONG
  else if names_directory s then inl EISDIR
  else match node_at f (resolve (cwd f) s) with
       | Some Dir => inl EISDIR
       | Some (File old) =>
           inr (set_node (resolve (cwd f) s)
                         (File (old ++ list_byte_of_string text)) f)
       | None =>
           create (resolve (cwd f) s) (File (list_byte_of_string text)) f
       end.

(** What the file held before; nothing when it did not exist. *)
Definition held (f : posix) (p : list string) : list byte :=
  match nodes f !! p with
  | Some (File o) => o
  | _ => []
  end.

#[global] Instance posix_OS : OS posix := {|
  os_path_isdir := posix_isdir;
  os_mkdir := posix_mkdir;
  open_append := posix_open;
  write_close := posix_write;
  os_listen := posix_listen
|}.

(** A path is inside a directory when its node lies at or below the
    directory's. *)
Definition inside (d : list string) (dir p : string) : Prop :=
  resolve d dir `prefix_of` resolve d p.

(** A recipient that cannot lead out of the directory it is joined to: it
    is not absolute and has no [..] among its components. *)
Definition stays_below (r : string) : Prop :=
  startswith_sep r = false ∧ ".." ∉ split_sep r.

(** ** Sample data *)

Definition bytes_of (s : string) : list byte := list_byte_of_string s.

(** A machine with [/var/mail] and [/tmp], and a regular file in the
    place of the directory of the recipient [bob]. *)
Definition disk0 : posix :=
  {| cwd := [];
     nodes := <[ ["var"; "mail"; "bob"] := File [] ]>
              (<[ ["var"; "mail"] := Dir ]>
              (<[ ["var"] := Dir ]>
              (<[ ["tmp"] := Dir ]> ∅))) |}.

Definition world_of (f : posix) : @World posix :=
  {| fs := f; clock := λ _, 1700000000; tick := 0; log := []; trace := [];
     fork_pid := 0; listening := None |}.

Definition handler0 : NullSMTPDHandler :=
  {| mail_dir := "/var/mail"; print_messages := false;
     file_extension := "eml" |}.

Definition envelope_to (rcpts : list string) (body : string) : Envelope :=
  {| mail_from := "alice@example.com"; rcpt_tos := rcpts;
     content := bytes_of body |}.

Definition carol : string := "carol@example.com".
Definition dave : string := "dave@example.com".

(** Two recipients whose directories can be made. *)
Definition env_two : Envelope := envelope_to [carol; dave] "hello".

(** The directory of the second recipient cannot be made. *)
Definition env_blocked : Envelope := envelope_to [carol; "bob"; dave] "hello".

(** An absolute recipient, then the blocked one, then a plain one. *)
Definition env_escape : Envelope :=
  envelope_to ["/tmp/x@evil"; "bob"; carol] "hello".

(** A body that is not UTF-8. *)
Definition env_binary : Envelope :=
  {| mail_from := "alice@example.com"; rcpt_tos := [carol];
     content := [Byte.xff] |}.

(** The world the loop starts in for the sample sender, and the world
    after the pass for [carol] in it. *)
Definition world_start : @World posix :=
  announced "alice@example.com" (world_of disk0).

Definition world_after_carol : @World posix :=
  (deliver handler0 "alice@example.com" "hello" [carol] world_start).2.

(** A logging set-up that touches nothing. *)
Definition quiet_logging (dir : string) (out : bool) (f : posix)
    : exn + posix :=
  inr f.

Definition args0 : Namespace :=
  {| args_no_fork := true; args_host := "localhost"; args_port := 25;
     args_mail_dir := "/var/mail"; args_file_extension := ".eml" |}.

#[global] Instance stays_below_dec (r : string) : Decision (stays_below r).
Proof. unfold stays_below. apply _. Defined.

(** ** The log of a call *)

(** What the pass for one recipient logs when it goes through. *)
Definition pass_log (self : NullSMTPDHandler) (data recipient : string)
    : list (level * string) :=
  (INFO, "Mail received for " +:+ recipient)
  :: (if print_messages self then [(INFO, data)] else []).

(** What a call logs when it runs to its end. *)
Definition expected_log (self : NullSMTPDHandler) (sender data : string)
    (rcpts : list string) : list (level * string) :=
  (INFO, "Incoming mail from " +:+ sender)
  :: flat_map (pass_log self data) rcpts.

(** A byte of the ASCII range. *)
Definition is_ascii (b : byte) : bool := in_range 0x00 0x7F b.

(** The same handler with another mail directory. *)
Definition with_mail_dir (dir : string) (self : NullSMTPDHandler)
    : NullSMTPDHandler :=
  {| mail_dir := dir; print_messages := print_messages self;
     file_extension := file_extension self |}.

(** ** The event loop and the shut-down *)

(** How [loop.run_forever()] comes to an end: the loop is stopped, the
    user interrupts it, or something else is raised out of it. *)
Inductive loop_end :=
  | LoopStopped
  | KeyboardInterrupt
  | LoopRaised (e : exn).

Section Serve.
Context {FS : Type} `{!OS FS}.

Definition clear_listening (w : @World FS) : @World FS :=
  {| fs := fs w; clock := clock w; tick := tick w; log := log w;
     trace := trace w; fork_pid := fork_pid w; listening := None |}.

(** [controller.stop()]. *)
Definition controller_stop : M unit := λ w, (inr tt, clear_listening w).

Variable configure_logging : string → bool → FS → exn + FS.
Variable version : string.

(** The event loop is asyncio's: it is a parameter, free to change the
    world while it serves the sessions. *)
Variable run_forever : @World FS → loop_end * @World FS.

(** The [try] statement that ends [main]: [run_forever], the
    [KeyboardInterrupt] that is passed over, and the [finally] part. *)
Definition serve : M unit :=
  λ w, match bind (logger_info "Stopping nullsmtpd") (λ _, controller_stop)
               (run_forever w).2 with
       | (inl e, w') => (inl e, w')
       | (inr _, w') =>
           match (run_forever w).1 with
           | LoopRaised e => (inl e, w')
           | LoopStopped | KeyboardInterrupt => (inr tt, w')
           end
       end.

(** The whole of [main()]. *)
Definition main_program (args : Namespace) : M unit :=
  bind (main configure_logging version args) (λ _, serve).
End Serve.

(** ** What a file system keeps *)

(** [f'] keeps what [f] holds: the working directory is the same, a
    directory is still a directory, and a file still begins with what it
    held. *)
Definition grows (f f' : posix) : Prop :=
  cwd f' = cwd f
  ∧ ∀ p, match nodes f !! p with
         | Some Dir => nodes f' !! p = Some Dir
         | Some (File o) => ∃ x, nodes f' !! p = Some (File (o ++ x))
         | None => True
         end.

(** Every file holds well-formed UTF-8. *)
Definition all_text (f : posix) : Prop :=
  ∀ p o, nodes f !! p = Some (File o) → utf8_check 0 o = None.

(** A name that is one component of a path and not a reference to the
    directory itself or to its parent. *)
Definition plain_name (r : string) : Prop :=
  no_sep r = true ∧ r ≠ "" ∧ r ≠ "." ∧ r ≠ "..".

(** Nothing stands in the way of the records of [rcpts], the [i]-th of
    which is written with the clock reading [clk (n + i)], below the
    node [m]: no regular file has the name of a recipient's directory
    and no directory has the name of a recipient's record. *)
Definition ready (f : posix) (m : list string) (sender ext : string)
    (clk : nat → Z) (n : nat) (rcpts : list string) : Prop :=
  ∀ (i : nat) r, rcpts !! i = Some r →
    (∀ o, nodes f !! (m ++ [r]) ≠ Some (File o))
    ∧ nodes f !! (m ++ [r; format_mail_file (clk (n + i)%nat) sender ext])
      ≠ Some Dir.

(** The directory and the record path of every recipient are within
    the lengths the system accepts: less than 4096 bytes in all and at
    most 255 bytes for a name. *)
Definition fits (self : NullSMTPDHandler) (sender : string)
    (clk : nat → Z) (n : nat) (rcpts : list string) : Prop :=
  ∀ (i : nat) r, rcpts !! i = Some r →
    too_long (os_path_join (mail_dir self) [r]) = false
    ∧ too_long
        (os_path_join (mail_dir self)
           [r; format_mail_file (clk (n + i)%nat) sender
                 (file_extension self)]) = false.

(** No NUL character in the string. *)
Definition no_nul (s : string) : bool := negb (mem_char "000" s).

(** None of the strings that make up the paths of a call holds a NUL
    character: the calls on the operating system then get the paths, and
    Python raises no [ValueError] of its own. *)
Definition nul_free (self : NullSMTPDHandler) (env : Envelope) : bool :=
  no_nul (mail_dir self) && no_nul (mail_from env)
  && no_nul (file_extension self) && forallb no_nul (rcpt_tos env).

(** ** More sample data *)

(** The arguments of a run that forks, and the world of the parent. *)
Definition args_daemon : Namespace :=
  {| args_no_fork := false; args_host := "localhost"; args_port := 25;
     args_mail_dir := "/var/mail"; args_file_extension := "eml" |}.

Definition world_parent : @World posix :=
  {| fs := disk0; clock := λ _, 1700000000; tick := 0; log := [];
     trace := []; fork_pid := 4242; listening := None |}.

(** An event loop that is interrupted at once. *)
Definition loop_interrupted (w : @World posix) : loop_end * @World posix :=
  (KeyboardInterrupt, w).

Definition env_absolute : Envelope :=
  envelope_to ["/tmp/x@evil"; "/tmp/y@evil"] "hello".

Definition env_twice : Envelope := envelope_to [carol; carol] "hello".

#[global] Instance plain_name_dec (r : string) : Decision (plain_name r).
Proof. unfold plain_name. apply _. Defined.

(** * Properties *)

(** The ways through one pass of the loop body: the directory is there
    or is made, or cannot be made; then the file cannot be opened, or
    the write fails, or the record is written. *)
Ltac pass_cases w :=
  unfold handle_recipient, mbind, M_bind, bind, logger_info, time_time_int,
    isdir, mkdir, append_text, ret; simpl;
  let Hd := fresh "Hd" in
  let Hm := fresh "Hm" in
  let Ho := fresh "Ho" in
  let Hw := fresh "Hw" in
  destruct (os_path_isdir _ (fs w)) eqn:Hd; simpl;
  [|destruct (os_mkdir _ (fs w)) as [?c|?f1] eqn:Hm; simpl;
    [intros [= <- <-]|]];
  [destruct (open_append _ (fs w)) as [?c|?f2] eqn:Ho
  |
  |destruct (open_append _ _) as [?c|?f2] eqn:Ho]; simpl;
  try (destruct (write_close _ _ _) as [[?c ?f3]|?f3] eqn:Hw; simpl;
       [|destruct (print_messages _)]);
  try intros [= <- <-]; simpl.

Section Generic.
Context {FS : Type} `{!OS FS}.
Implicit Types (w : @World FS) (self : NullSMTPDHandler).

Lemma appends_app (a b : list event) :
  appends (a ++ b) = appends a ++ appends b.
Proof.
  induction a as [|[p|p t|p t] a IH]; simpl; [done|done|by rewrite IH|done].
Qed.

Lemma replay_app (a b : list event) (f : FS) :
  replay (a ++ b) f = replay a f ≫= replay b.
Proof.
  revert f; induction a as [|[p|p t|p t] a IH]; intros f; simpl; [done| | |].
  - destruct (os_mkdir p f); [done|apply IH].
  - destruct (open_append p f) as [c|f1]; [done|].
    destruct (write_close p t f1) as [[c f2]|f2]; [done|apply IH].
  - destruct (open_append p f) as [c|f1]; [done|].
    destruct (write_close p t f1) as [[c f2]|f2]; [apply IH|done].
Qed.

Lemma after_refl w : after w [] w.
Proof. unfold after; simpl. by rewrite app_nil_r. Qed.

Lemma after_trans w1 w2 w3 e1 e2 :
  after w1 e1 w2 → after w2 e2 w3 → after w1 (e1 ++ e2) w3.
Proof.
  intros (T1 & R1 & C1 & L1) (T2 & R2 & C2 & L2). unfold after.
  rewrite T2, T1, app_assoc, replay_app, R1, C2, C1, L2, L1. simpl.
  by rewrite R2.
Qed.

Lemma for_each_app {A} (f : A → M unit) (l1 l2 : list A) w :
  for_each f (l1 ++ l2) w
  = match for_each f l1 w with
    | (inl e, w') => (inl e, w')
    | (inr _, w') => for_each f l2 w'
    end.
Proof.
  revert w; induction l1 as [|x l1 IH]; intros w; simpl; [done|].
  unfold bind. destruct (f x w) as [[e|[]] w']; [done|apply IH].
Qed.

(** One pass of the loop body. *)
Lemma handle_recipient_spec self sender data r w res w' :
  handle_recipient self sender data r w = (res, w') →
  tick w' = S (tick w)
  ∧ ∃ evs, after w evs w'
    ∧ match res with
      | inr _ => appends evs = [record_of self sender data (clock w (tick w)) r]
      | inl e =>
          appends evs = []
          ∧ ((∃ c f, e = OSError c f) ∨ ∃ c, e = OSErrorUnnamed c)
      end.
Proof.
  unfold record_of. pass_cases w; (split; [done|]).
  - exists []. split; [|eauto]. unfold after; simpl. by rewrite app_nil_r.
  - eexists [EvBroken _ _]. split; [|eauto].
    unfold after; simpl. by rewrite Ho, Hw.
  - eexists [EvAppend _ _]. split; [|done].
    unfold after; simpl. by rewrite Ho, Hw.
  - eexists [EvAppend _ _]. split; [|done].
    unfold after; simpl. by rewrite Ho, Hw.
  - exists []. split; [|eauto]. unfold after; simpl. by rewrite app_nil_r.
  - eexists [EvMkdir _]. split; [|eauto]. unfold after; simpl. by rewrite Hm.
  - eexists [EvMkdir _; EvBroken _ _]. split; [|eauto].
    unfold after; simpl. by rewrite <- app_assoc, Hm, Ho, Hw.
  - eexists [EvMkdir _; EvAppend _ _]. split; [|done].
    unfold after; simpl. by rewrite <- app_assoc, Hm, Ho, Hw.
  - eexists [EvMkdir _; EvAppend _ _]. split; [|done].
    unfold after; simpl. by rewrite <- app_assoc, Hm, Ho, Hw.
Qed.

(** The loop: every pass adds its record, in the order of the list,
    until a pass raises; the call ends there, in the world that pass
    left. *)
Lemma deliver_spec self sender data rcpts w res w' :
  deliver self sender data rcpts w = (res, w') →
  ∃ evs, after w evs w'
    ∧ match res with
      | inr _ =>
          appends evs
          = expected_appends self sender data (clock w) (tick w) rcpts
      | inl e =>
          ((∃ c f, e = OSError c f) ∨ ∃ c, e = OSErrorUnnamed c)
          ∧ ∃ k, (k < length rcpts)%nat
            ∧ appends evs
              = take k (expected_appends self sender data (clock w)
                          (tick w) rcpts)
            ∧ ∃ r w1, rcpts !! k = Some r
                ∧ deliver self sender data (take k rcpts) w = (inr tt, w1)
                ∧ handle_recipient self sender data r w1 = (inl e, w')
      end.
Proof.
  unfold deliver. revert w; induction rcpts as [|r rs IH]; intros w; simpl.
  - intros [= <- <-]. exists []. split; [apply after_refl|done].
  - unfold bind.
    destruct (handle_recipient self sender data r w) as [[e|[]] w1] eqn:Hr;
      pose proof Hr as Hr';
      apply handle_recipient_spec in Hr as (Ht & evs & Ha & Hr).
    + intros [= <- <-]. exists evs. split; [done|].
      destruct Hr as [Hn He]. split; [done|]. exists 0%nat.
      split; [lia|]. split; [by rewrite Hn|]. by exists r, w.
    + intros Hrest. apply IH in Hrest as (evs' & Ha' & Hrest).
      exists (evs ++ evs'). split; [by eapply after_trans|].
      destruct Ha as (_ & _ & Hc & _). rewrite Hc, Ht in Hrest.
      rewrite appends_app, Hr. destruct res as [e|u].
      * destruct Hrest as [He (k & Hk & Happ & r' & w2 & Hl & Hpre & Hst)].
        split; [done|]. exists (S k). split; [lia|].
        split; [simpl; by rewrite Happ|]. exists r', w2.
        split; [done|]. split; [|done]. simpl. unfold bind.
        by rewrite Hr'.
      * simpl. by rewrite Hrest.
Qed.

Lemma expected_appends_length self sender data clk n rcpts :
  length (expected_appends self sender data clk n rcpts) = length rcpts.
Proof.
  revert n; induction rcpts as [|r rs IH]; intros n; simpl; [done|].
  by rewrite IH.
Qed.

Lemma expected_appends_lookup self sender data clk n rcpts (i : nat) r :
  rcpts !! i = Some r →
  expected_appends self sender data clk n rcpts !! i
  = Some (record_of self sender data (clk (n + i)%nat) r).
Proof.
  revert n i; induction rcpts as [|r' rs IH]; intros n [|i]; simpl;
    try done.
  - intros [= ->]. by rewrite Nat.add_0_r.
  - intros Hi. rewrite (IH (S n) i Hi). do 3 f_equal. lia.
Qed.

(** [handle_DATA] is: decode, announce the sender, run the loop, and
    answer when the loop has come to its end. *)
Lemma handle_DATA_eval self env w :
  handle_DATA self env w
  = match utf8_check 0 (content env) with
    | Some i => (inl (UnicodeDecodeError i), w)
    | None =>
        match deliver self (mail_from env)
                (string_of_list_byte (content env)) (rcpt_tos env)
                (announced (mail_from env) w) with
        | (inl e, w') => (inl e, w')
        | (inr _, w') => (inr "250 OK", w')
        end
    end.
Proof.
  unfold handle_DATA, decode_utf8, mbind, M_bind, bind, deliver.
  destruct (utf8_check 0 (content env)); [done|]. simpl.
  by destruct (for_each _ _ _) as [[e|[]] w'].
Qed.

(** A pass that raises ends the call: what comes after it in the list
    plays no part. *)
Lemma handle_DATA_abort self env w pre r post e w1 w2 :
  utf8_check 0 (content env) = None →
  rcpt_tos env = pre ++ r :: post →
  deliver self (mail_from env) (string_of_list_byte (content env)) pre
    (announced (mail_from env) w) = (inr tt, w1) →
  handle_recipient self (mail_from env)
    (string_of_list_byte (content env)) r w1 = (inl e, w2) →
  handle_DATA self env w = (inl e, w2).
Proof.
  intros Hu Hr Hpre Hstep. rewrite handle_DATA_eval, Hu, Hr.
  unfold deliver in *. rewrite for_each_app, Hpre. simpl.
  unfold bind. by rewrite Hstep.
Qed.

Lemma handle_recipient_mkdir_fails self sender data r w c :
  os_path_isdir (os_path_join (mail_dir self) [r]) (fs w) = false →
  os_mkdir (os_path_join (mail_dir self) [r]) (fs w) = inl c →
  ∃ w', handle_recipient self sender data r w
        = (inl (OSError c (os_path_join (mail_dir self) [r])), w')
    ∧ fs w' = fs w ∧ trace w' = trace w.
Proof.
  intros Hd Hm. eexists.
  unfold handle_recipient, mbind, M_bind, bind, logger_info, time_time_int,
    isdir, mkdir, append_text, ret; simpl in *.
  rewrite Hd; simpl. rewrite Hm. done.
Qed.

Lemma list_byte_of_string_app (s t : string) :
  list_byte_of_string (s +:+ t)
  = list_byte_of_string s ++ list_byte_of_string t.
Proof.
  unfold list_byte_of_string.
  induction s as [|c s IH]; simpl; [done|]. by rewrite IH.
Qed.

(** The text written for a body is, byte for byte, the body and one
    line feed. *)
Lemma record_bytes (body : list byte) :
  list_byte_of_string (string_of_list_byte body +:+ LF)
  = body ++ [Byte.x0a].
Proof.
  by rewrite list_byte_of_string_app, list_byte_of_string_of_list_byte.
Qed.



(** C3.  ['250 OK'] is the only answer, and it is given only when the
    record of every recipient has been appended; when the pass for some
    recipient raises, the call raises and gives no answer. *)
Theorem reply_only_after_all_records self env w :
  (∀ reply w',
     handle_DATA self env w = (inr reply, w') →
     reply = "250 OK"
     ∧ utf8_check 0 (content env) = None
     ∧ ∃ evs, after w evs w'
         ∧ appends evs
           = expected_appends self (mail_from env)
               (string_of_list_byte (content env)) (clock w) (tick w)
               (rcpt_tos env))
  ∧ (∀ pre r post e w1 w2,
       rcpt_tos env = pre ++ r :: post →
       deliver self (mail_from env) (string_of_list_byte (content env))
         pre (announced (mail_from env) w) = (inr tt, w1) →
       handle_recipient self (mail_from env)
         (string_of_list_byte (content env)) r w1 = (inl e, w2) →
       ∃ e' w', handle_DATA self env w = (inl e', w')).
Proof.
  split.
  - intros reply w'. rewrite handle_DATA_eval.
    destruct (utf8_check 0 (content env)); [done|].
    destruct (deliver _ _ _ _ _) as [[e|u] w1] eqn:Hd; [done|].
    intros [= <- <-]. apply deliver_spec in Hd as (evs & Ha & Happ).
    split; [done|]. split; [done|]. exists evs. by split.
  - intros pre r post e w1 w2 Hr Hpre Hstep.
    destruct (utf8_check 0 (content env)) as [i|] eqn:Hu.
    + exists (UnicodeDecodeError i), w. by rewrite handle_DATA_eval, Hu.
    + exists e, w2. by eapply handle_DATA_abort.
Qed.

(** C6.  When the directory of a recipient is missing and cannot be
    created, the call raises the creation error there: the pass makes
    no file-system call, nothing is opened or written for that
    recipient, and the file system stays as the passes before it left
    it. *)
Theorem no_record_without_directory self env w pre r post c w1 :
  utf8_check 0 (content env) = None →
  rcpt_tos env = pre ++ r :: post →
  deliver self (mail_from env) (string_of_list_byte (content env)) pre
    (announced (mail_from env) w) = (inr tt, w1) →
  os_path_isdir (os_path_join (mail_dir self) [r]) (fs w1) = false →
  os_mkdir (os_path_join (mail_dir self) [r]) (fs w1) = inl c →
  ∃ w2,
    handle_DATA self env w
    = (inl (OSError c (os_path_join (mail_dir self) [r])), w2)
    ∧ fs w2 = fs w1
    ∧ trace w2 = trace w1.
Proof.
  intros Hu Hr Hpre Hd Hm.
  destruct (handle_recipient_mkdir_fails self (mail_from env)
              (string_of_list_byte (content env)) r w1 c Hd Hm)
    as (w2 & Hstep & Hfs & Htr).
  exists w2. split; [by eapply handle_DATA_abort|done].
Qed.

(** C7.  Whatever the envelope, the call takes the recipients in the
    order of the list and stops at the first pass that raises.  With [k]
    the number of passes that went through, the appends it made are
    exactly the records of the first [k] recipients, in that order; [k]
    is the whole list when the call answers; otherwise the body did not
    decode and [k] is 0, or the pass of the recipient of index [k] is
    the one that raised and the call ended there.  The file system after
    the call is the one obtained by performing the calls in that
    order. *)
Theorem records_follow_recipient_order self env w :
  ∃ evs (k : nat),
    after w evs (handle_DATA self env w).2
    ∧ appends evs
      = take k (expected_appends self (mail_from env)
                  (string_of_list_byte (content env)) (clock w) (tick w)
                  (rcpt_tos env))
    ∧ match (handle_DATA self env w).1 with
      | inr _ => k = length (rcpt_tos env)
      | inl e =>
          (k = 0%nat
           ∧ ∃ i, utf8_check 0 (content env) = Some i
                ∧ e = UnicodeDecodeError i)
          ∨ (utf8_check 0 (content env) = None
             ∧ (k < length (rcpt_tos env))%nat
             ∧ ∃ r w1,
                 rcpt_tos env !! k = Some r
                 ∧ deliver self (mail_from env)
                     (string_of_list_byte (content env))
                     (take k (rcpt_tos env)) (announced (mail_from env) w)
                   = (inr tt, w1)
                 ∧ handle_recipient self (mail_from env)
                     (string_of_list_byte (content env)) r w1
                   = (inl e, (handle_DATA self env w).2))
      end.
Proof.
  rewrite handle_DATA_eval.
  destruct (utf8_check 0 (content env)) as [i|].
  { exists [], 0%nat. simpl. split; [apply after_refl|]. split; [done|].
    left. split; [done|]. by exists i. }
  destruct (deliver _ _ _ _ _) as [[e|u] w1] eqn:Hd;
    apply deliver_spec in Hd as (evs & Ha & Happ); simpl in *.
  - destruct Happ as (_ & k & Hk & Happ & Hfail). exists evs, k.
    split; [exact Ha|]. split; [done|]. right. by split.
  - exists evs, (length (rcpt_tos env)). split; [exact Ha|]. split; [|done].
    rewrite Happ, take_ge; [done|]. by rewrite expected_appends_length.
Qed.

(** C9.  A body that is not valid UTF-8 makes [handle_DATA] raise
    [UnicodeDecodeError] and leaves the world exactly as it was: no
    directory, no file, no log line. *)
Theorem invalid_body_has_no_effect self env w (i : nat) :
  utf8_check 0 (content env) = Some i →
  handle_DATA self env w = (inl (UnicodeDecodeError i), w).
Proof. intros Hu. by rewrite handle_DATA_eval, Hu. Qed.
End Generic.

Section Startup.
Context {FS : Type} `{!OS FS}.
Implicit Types (w : @World FS).

Lemma lstrip_dots_split (ext : string) :
  ∃ k, ext = dots k +:+ lstrip "." ext.
Proof.
  induction ext as [|c ext [k IH]]; [by exists 0%nat|].
  simpl. destruct (decide (c = "."%char)) as [->|Hc].
  - exists (S k).
    change (String "." ext = String "." (dots k +:+ lstrip "." ext)).
    by f_equal.
  - by exists 0%nat.
Qed.

Lemma lstrip_dots_head (ext rest : string) :
  lstrip "." ext ≠ String "." rest.
Proof.
  induction ext as [|c ext IH]; simpl; [done|].
  destruct (decide (c = "."%char)) as [->|Hc]; [done|]. congruence.
Qed.

Lemma init_extension v om ext w h w' :
  __init__ v om ext w = (inr h, w') → file_extension h = lstrip "." ext.
Proof.
  unfold __init__, mbind, M_bind, bind, isdir, mkdir, logger_info,
    logger_error, raise, ret.
  destruct v as [| | |dir]; simpl; try done.
  destruct (os_path_isdir dir (fs w)); simpl.
  - by intros [= <- <-].
  - destruct (os_mkdir dir (fs w)); simpl; [done|]. by intros [= <- <-].
Qed.

Lemma init_listening v om ext w res w' :
  __init__ v om ext w = (res, w') → listening w' = listening w.
Proof.
  unfold __init__, mbind, M_bind, bind, isdir, mkdir, logger_info,
    logger_error, raise, ret.
  destruct v as [|b|z|dir]; simpl; try by intros [= <- <-].
  destruct (os_path_isdir dir (fs w)); simpl.
  - by intros [= <- <-].
  - destruct (os_mkdir dir (fs w)); simpl; by intros [= <- <-].
Qed.

Lemma init_not_str v om ext w :
  (∀ s, v ≠ PyStr s) →
  __init__ v om ext w
  = (inl (SystemExit ("Invalid mail_dir variable: " +:+ py_format v)),
     push_log ERROR ("Invalid mail_dir variable: " +:+ py_format v) w).
Proof. intros Hv. destruct v; try done. by destruct (Hv s). Qed.

Lemma init_mkdir_fails dir om ext w c :
  os_path_isdir dir (fs w) = false →
  os_mkdir dir (fs w) = inl c →
  __init__ (PyStr dir) om ext w
  = (inl (OSError c dir), push_log ERROR (str_of_oserror c dir) w).
Proof.
  intros Hd Hm.
  unfold __init__, mbind, M_bind, bind, isdir, mkdir, logger_error, raise.
  simpl. rewrite Hd. simpl. by rewrite Hm.
Qed.

Section WithLogger.
Variable configure_logging : string → bool → FS → exn + FS.
Variable version : string.

Lemma before_handler_listening args w res w' :
  before_handler configure_logging version args w = (res, w') →
  listening w' = listening w.
Proof.
  unfold before_handler, mbind, M_bind, bind, isdir, mkdir, os_fork,
    run_configure_logging, logger_info, raise, ret. simpl.
  destruct (os_path_isdir _ (fs w)); simpl;
    [|destruct (os_mkdir _ (fs w)); simpl; [by intros [= <- <-]|]];
    (destruct (args_no_fork args); simpl;
     [|destruct (decide (fork_pid w ≠ 0)); simpl;
       [by intros [= <- <-]|]]);
    destruct (configure_logging _ _ _); simpl; by intros [= <- <-].
Qed.

Lemma main_eval args w :
  main configure_logging version args w
  = match before_handler configure_logging version args w with
    | (inl e, w0) => (inl e, w0)
    | (inr _, w0) =>
        match __init__ (PyStr (args_mail_dir args))
                (PyBool (args_no_fork args))
                (args_file_extension args) w0 with
        | (inl e, w1) => (inl e, w1)
        | (inr h, w1) =>
            controller_start h (args_host args) (args_port args) w1
        end
    end.
Proof.
  unfold main, before_handler.
  set (init := __init__ _ _ _). clearbody init.
  unfold mbind, M_bind, bind, isdir, mkdir, os_fork,
    run_configure_logging, logger_info, raise, ret.
  simpl.
  destruct (os_path_isdir _ (fs w)); simpl;
    [|destruct (os_mkdir _ (fs w)); simpl; [done|]];
    (destruct (args_no_fork args); simpl;
     [|destruct (decide (fork_pid w ≠ 0)); simpl; [done|]]);
    destruct (configure_logging _ _ _); simpl; try done;
    by destruct (init _) as [[e|h] w1].
Qed.
End WithLogger.
End Startup.

(** ** Paths *)

Section Paths.
Implicit Types (a b s : string) (d cur : list string).

Lemma string_app_cons (c : ascii) a b :
  String c a +:+ b = String c (a +:+ b).
Proof. reflexivity. Qed.

Lemma string_app_nil_l b : "" +:+ b = b.
Proof. reflexivity. Qed.

Lemma string_app_assoc a b s : (a +:+ b) +:+ s = a +:+ b +:+ s.
Proof.
  induction a as [|c a IH]; [done|]. by rewrite !string_app_cons, IH.
Qed.

Lemma split_sep_cons s : ∃ h t, split_sep s = h :: t.
Proof.
  induction s as [|c s (h & t & IH)]; simpl; [by eauto|].
  destruct (decide (c = "/"%char)); [by eauto|]. rewrite IH. eauto.
Qed.

Lemma split_sep_app a b :
  split_sep (a +:+ "/" +:+ b) = split_sep a ++ split_sep b.
Proof.
  induction a as [|c a IH]; [done|]. rewrite string_app_cons. simpl.
  destruct (decide (c = "/"%char)); [by rewrite IH|].
  rewrite IH. by destruct (split_sep_cons a) as (h & t & ->).
Qed.

Lemma split_sep_no_sep s : no_sep s = true → split_sep s = [s].
Proof.
  unfold no_sep. induction s as [|c s IH]; simpl; [done|].
  destruct (decide ("/"%char = c)) as [<-|Hc]; [done|].
  destruct (decide (c = "/"%char)); [congruence|].
  intros Hs. by rewrite (IH Hs).
Qed.

Lemma endswith_sep_app a : endswith_sep a = true → ∃ a', a = a' +:+ "/".
Proof.
  induction a as [|c a IH]; simpl; [done|]. destruct a as [|c' a].
  - destruct (decide (c = "/"%char)) as [->|]; [|done]. by exists "".
  - intros Ha. destruct (IH Ha) as [a' Ha']. exists (String c a').
    by rewrite string_app_cons, <- Ha'.
Qed.

Lemma startswith_sep_app a b :
  a ≠ "" → startswith_sep (a +:+ b) = startswith_sep a.
Proof. by destruct a. Qed.

Lemma resolve_app_sep d a b :
  a ≠ "" →
  resolve d (a +:+ "/" +:+ b) = fold_left walk (split_sep b) (resolve d a).
Proof.
  intros Ha. unfold resolve.
  by rewrite split_sep_app, fold_left_app, startswith_sep_app.
Qed.

Lemma resolve_trailing_sep d a :
  a ≠ "" → resolve d (a +:+ "/") = resolve d a.
Proof.
  intros Ha. change (a +:+ "/") with (a +:+ "/" +:+ "").
  by rewrite (resolve_app_sep d a "" Ha).
Qed.

(** Joining a relative component walks on from the node reached so
    far. *)
Lemma resolve_join_step d a b :
  startswith_sep b = false →
  resolve d (join_step a b) = fold_left walk (split_sep b) (resolve d a).
Proof.
  intros Hb. unfold join_step. rewrite Hb.
  destruct (decide (a = "")) as [->|Ha].
  { rewrite string_app_nil_l. unfold resolve. by rewrite Hb. }
  destruct (endswith_sep a) eqn:He.
  - destruct (endswith_sep_app a He) as [a' ->].
    destruct (decide (a' = "")) as [->|Ha'].
    + reflexivity.
    + rewrite resolve_trailing_sep, string_app_assoc by done.
      by apply resolve_app_sep.
  - by apply resolve_app_sep.
Qed.




(** *** The file name is one plain component *)

Lemma mem_char_app (c : ascii) a b :
  mem_char c (a +:+ b) = mem_char c a || mem_char c b.
Proof.
  induction a as [|c' a IH]; [done|]. rewrite string_app_cons. simpl.
  by destruct (decide (c = c')).
Qed.

Lemma pretty_N_char_plain (c : ascii) (x : N) :
  c = "/"%char ∨ c = "."%char → c ≠ pretty_N_char x.
Proof.
  intros [-> | ->]; unfold pretty_N_char; repeat case_match; done.
Qed.

Lemma pretty_N_go_plain (c : ascii) (x : N) s :
  c = "/"%char ∨ c = "."%char →
  mem_char c s = false → mem_char c (pretty_N_go x s) = false.
Proof.
  intros Hc. revert s.
  induction (N.lt_wf_0 x) as [x _ IH]; intros s Hs.
  destruct (decide (x = 0)%N) as [->|Hx]; [by rewrite pretty_N_go_0|].
  rewrite pretty_N_go_step by lia. apply IH; [apply N.div_lt; lia|].
  simpl. destruct (decide (c = pretty_N_char (x `mod` 10))) as [He|];
    [|done].
  by destruct (pretty_N_char_plain c (x `mod` 10) Hc).
Qed.

Lemma pretty_N_go_nonempty (x : N) s : s ≠ "" → pretty_N_go x s ≠ "".
Proof.
  revert s. induction (N.lt_wf_0 x) as [x _ IH]; intros s Hs.
  destruct (decide (x = 0)%N) as [->|Hx]; [by rewrite pretty_N_go_0|].
  rewrite pretty_N_go_step by lia. apply IH; [apply N.div_lt; lia|done].
Qed.

Lemma pretty_pos_plain (c : ascii) (p : positive) :
  c = "/"%char ∨ c = "."%char →
  mem_char c (pretty (N.pos p)) = false ∧ pretty (N.pos p) ≠ "".
Proof.
  intros Hc. unfold pretty, pretty_N.
  destruct (decide (N.pos p = 0)%N); [done|]. split.
  - by apply pretty_N_go_plain.
  - rewrite pretty_N_go_step by lia. by apply pretty_N_go_nonempty.
Qed.

(** ["{:d}".format(t)] has digits and at most a sign. *)
Lemma pretty_Z_plain (c : ascii) (t : Z) :
  c = "/"%char ∨ c = "."%char →
  mem_char c (pretty t) = false ∧ pretty t ≠ "".
Proof.
  intros Hc. destruct t as [|p|p].
  - by destruct Hc as [-> | ->].
  - by apply pretty_pos_plain.
  - change (pretty (Z.neg p)) with ("-" +:+ pretty (N.pos p)).
    destruct (pretty_pos_plain c p Hc) as [Hm _]. split; [|done].
    rewrite mem_char_app, Hm. by destruct Hc as [-> | ->].
Qed.


Lemma mail_file_relative (t : Z) (sender ext : string) :
  startswith_sep (format_mail_file t sender ext) = false.
Proof.
  unfold format_mail_file.
  destruct (pretty_Z_plain "/" t) as [Hp Hn]; [by left|].
  destruct (pretty t) as [|c s]; [done|]. rewrite string_app_cons.
  simpl in Hp. destruct (decide ("/"%char = c)) as [<-|]; [done|].
  simpl. by repeat case_match.
Qed.

(** For a relative recipient the joined path names the node
    [mail_dir/recipient/file]. *)
Lemma record_path_plain d (dir r : string) (t : Z) (sender ext : string) :
  dir ≠ "" → startswith_sep r = false →
  resolve d (os_path_join dir [r; format_mail_file t sender ext])
  = resolve d (dir +:+ "/" +:+ r +:+ "/" +:+ format_mail_file t sender ext).
Proof.
  intros Hd Hr. unfold os_path_join. simpl.
  rewrite !resolve_join_step by (done || apply mail_file_relative).
  by rewrite resolve_app_sep, split_sep_app, fold_left_app.
Qed.
End Paths.

Section Calls.
Context {FS : Type} `{!OS FS}.
Implicit Types (w : @World FS) (self : NullSMTPDHandler).

Lemma handle_recipient_events self sender data r w res w' :
  handle_recipient self sender data r w = (res, w') →
  ∃ evs, trace w' = trace w ++ evs
    ∧ Forall (event_of self sender data r) evs.
Proof.
  assert (∀ p, p = os_path_join (mail_dir self) [r] →
            event_of self sender data r (EvMkdir p)) as Hmk.
  { intros p ->. by left. }
  assert (∀ t p text,
            p = os_path_join (mail_dir self)
                  [r; format_mail_file t sender (file_extension self)] →
            text = data +:+ LF →
            event_of self sender data r (EvAppend p text)) as Hap.
  { intros t p text -> ->. right; left. by exists t. }
  assert (∀ t p text,
            p = os_path_join (mail_dir self)
                  [r; format_mail_file t sender (file_extension self)] →
            text = data +:+ LF →
            event_of self sender data r (EvBroken p text)) as Hbr.
  { intros t p text -> ->. right; right. by exists t. }
  pass_cases w.
  - exists []. by rewrite app_nil_r.
  - eexists [_]. split; [done|]. apply Forall_cons_2; [|done]. by eapply Hbr.
  - eexists [_]. split; [done|]. apply Forall_cons_2; [|done]. by eapply Hap.
  - eexists [_]. split; [done|]. apply Forall_cons_2; [|done]. by eapply Hap.
  - exists []. by rewrite app_nil_r.
  - eexists [_]. split; [done|]. apply Forall_cons_2; [|done]. by apply Hmk.
  - eexists [_; _]. split; [by rewrite <- app_assoc|].
    apply Forall_cons_2; [by apply Hmk|].
    apply Forall_cons_2; [|done]. by eapply Hbr.
  - eexists [_; _]. split; [by rewrite <- app_assoc|].
    apply Forall_cons_2; [by apply Hmk|].
    apply Forall_cons_2; [|done]. by eapply Hap.
  - eexists [_; _]. split; [by rewrite <- app_assoc|].
    apply Forall_cons_2; [by apply Hmk|].
    apply Forall_cons_2; [|done]. by eapply Hap.
Qed.

Lemma deliver_events self sender data rcpts w res w' :
  deliver self sender data rcpts w = (res, w') →
  ∃ evs, trace w' = trace w ++ evs
    ∧ Forall (λ ev, ∃ r, r ∈ rcpts ∧ event_of self sender data r ev) evs.
Proof.
  unfold deliver. revert w; induction rcpts as [|r rs IH]; intros w; simpl.
  - intros [= <- <-]. exists []. by rewrite app_nil_r.
  - unfold bind.
    destruct (handle_recipient self sender data r w) as [[e|[]] w1] eqn:Hr;
      apply handle_recipient_events in Hr as (evs & Ht & Hev).
    + intros [= <- <-]. exists evs. split; [done|].
      eapply Forall_impl; [exact Hev|]. intros ev ?. exists r.
      split; [left|done].
    + intros Hrest. apply IH in Hrest as (evs' & Ht' & Hev').
      exists (evs ++ evs'). split; [by rewrite Ht', Ht, app_assoc|].
      apply Forall_app. split.
      * eapply Forall_impl; [exact Hev|]. intros ev ?. exists r.
        split; [left|done].
      * eapply Forall_impl; [exact Hev'|]. intros ev (r' & ? & ?).
        exists r'. split; [by right|done].
Qed.

Lemma handle_DATA_events self env w :
  ∃ evs, trace (handle_DATA self env w).2 = trace w ++ evs
    ∧ Forall (λ ev, ∃ r, r ∈ rcpt_tos env
                ∧ event_of self (mail_from env)
                    (string_of_list_byte (content env)) r ev) evs.
Proof.
  rewrite handle_DATA_eval. destruct (utf8_check 0 (content env)).
  { exists []. simpl. by rewrite app_nil_r. }
  destruct (deliver _ _ _ _ _) as [[e|u] w1] eqn:Hd;
    apply deliver_events in Hd as (evs & Ht & Hev); by exists evs.
Qed.

(** C1 (as amended).  When [handle_DATA] runs to its end and answers,
    the file-system calls it made contain exactly one append per entry
    of the recipient list, in the order of the list: the [i]-th goes to
    [os.path.join(mail_dir, r_i, "<seconds>.<sender>.<extension>")],
    with the seconds read at that pass, and its text is the body
    followed by exactly one line feed.  For a recipient that is not
    absolute that path names the node [mail_dir/r_i/<file>]. *)
Theorem one_record_per_recipient self env w reply w' :
  handle_DATA self env w = (inr reply, w') →
  ∃ evs, after w evs w'
    ∧ length (appends evs) = length (rcpt_tos env)
    ∧ (∀ (i : nat) r, rcpt_tos env !! i = Some r →
         ∃ path text,
           appends evs !! i = Some (path, text)
           ∧ path = os_path_join (mail_dir self)
                      [r; format_mail_file (clock w (tick w + i)%nat)
                            (mail_from env) (file_extension self)]
           ∧ list_byte_of_string text = content env ++ [Byte.x0a]
           ∧ (mail_dir self ≠ "" → startswith_sep r = false →
              ∀ d, resolve d path
                   = resolve d (mail_dir self +:+ "/" +:+ r +:+ "/"
                                +:+ format_mail_file
                                      (clock w (tick w + i)%nat)
                                      (mail_from env)
                                      (file_extension self)))).
Proof.
  rewrite handle_DATA_eval.
  destruct (utf8_check 0 (content env)); [done|].
  destruct (deliver _ _ _ _ _) as [[e|u] w1] eqn:Hd; [done|].
  intros [= <- <-]. apply deliver_spec in Hd as (evs & Ha & Happ).
  exists evs. split; [exact Ha|]. simpl in Happ. rewrite Happ.
  split; [apply expected_appends_length|].
  intros i r Hi. eexists _, _. split; [by apply expected_appends_lookup|].
  split; [done|]. split; [apply record_bytes|].
  intros Hm Hr d. by apply record_path_plain.
Qed.

(** C10.  A handler that has been built holds the extension it was
    given without its leading dots: it never begins with a dot, and
    every file [handle_DATA] appends to is named
    [<seconds>.<sender>.<extension>], the two dots being those of the
    format string. *)
Theorem extension_has_no_leading_dot v om ext w0 self w1 :
  __init__ v om ext w0 = (inr self, w1) →
  file_extension self = lstrip "." ext
  ∧ (∃ k, ext = dots k +:+ file_extension self)
  ∧ (∀ rest, file_extension self ≠ String "." rest)
  ∧ ∀ env w,
      ∃ evs, trace (handle_DATA self env w).2 = trace w ++ evs
        ∧ Forall (λ ev, ∀ p text, ev = EvAppend p text →
                    ∃ r (t : Z), r ∈ rcpt_tos env
                      ∧ p = os_path_join (mail_dir self)
                              [r; pretty t +:+ "." +:+ mail_from env
                                  +:+ "." +:+ lstrip "." ext]) evs.
Proof.
  intros Hi. apply init_extension in Hi as Hx. rewrite Hx.
  split; [done|]. split; [apply lstrip_dots_split|].
  split; [apply lstrip_dots_head|]. intros env w.
  destruct (handle_DATA_events self env w) as (evs & Ht & Hev).
  exists evs. split; [done|]. eapply Forall_impl; [exact Hev|].
  intros ev (r & Hin & Hof) p text ->.
  destruct Hof as [?|[[t [= -> _]]|[t ?]]]; [done| |done].
  exists r, t. split; [done|]. by rewrite Hx.
Qed.

(** C8.  A [mail_dir] that is not a string makes the constructor raise
    [SystemExit]; a missing mail directory that cannot be created makes
    it raise the creation error, after logging it.  In [main] the
    controller is started only after the constructor has returned a
    handler: when the constructor raises, [main] raises the same
    exception and nothing is listening. *)
Theorem unusable_mail_dir_stops_startup
    (configure_logging : string → bool → FS → exn + FS)
    (version : string) :
  (∀ v om ext w,
     (∀ s, v ≠ PyStr s) →
     ∃ msg, __init__ v om ext w
            = (inl (SystemExit msg), push_log ERROR msg w))
  ∧ (∀ dir om ext w c,
       os_path_isdir dir (fs w) = false →
       os_mkdir dir (fs w) = inl c →
       __init__ (PyStr dir) om ext w
       = (inl (OSError c dir), push_log ERROR (str_of_oserror c dir) w))
  ∧ (∀ args w w0 e w1,
       before_handler configure_logging version args w = (inr tt, w0) →
       __init__ (PyStr (args_mail_dir args)) (PyBool (args_no_fork args))
         (args_file_extension args) w0 = (inl e, w1) →
       main configure_logging version args w = (inl e, w1)
       ∧ listening w1 = listening w)
  ∧ (∀ args w,
       listening (main configure_logging version args w).2 ≠ listening w →
       ∃ w0 self w1,
         before_handler configure_logging version args w = (inr tt, w0)
         ∧ __init__ (PyStr (args_mail_dir args))
             (PyBool (args_no_fork args)) (args_file_extension args) w0
           = (inr self, w1)).
Proof.
  split; [|split; [|split]].
  - intros v om ext w Hv. eexists. by apply init_not_str.
  - intros dir om ext w c. apply init_mkdir_fails.
  - intros args w w0 e w1 Hb Hi. rewrite main_eval, Hb, Hi.
    split; [done|]. apply init_listening in Hi.
    apply before_handler_listening in Hb. congruence.
  - intros args w. rewrite main_eval.
    destruct (before_handler _ _ _ _) as [[e|[]] w0] eqn:Hb.
    { apply before_handler_listening in Hb. by simpl. }
    destruct (__init__ _ _ _ w0) as [[e|self] w1] eqn:Hi.
    { apply init_listening in Hi. apply before_handler_listening in Hb.
      simpl. congruence. }
    intros _. by exists w0, self, w1.
Qed.

End Calls.

(** ** The reference file system *)

Section Posix.
Implicit Types (f : posix) (p q : list string) (w : @World posix).

Lemma node_at_nodes f p : p ≠ [] → node_at f p = nodes f !! p.
Proof. by destruct p. Qed.

Lemma posix_isdir_true s f :
  posix_isdir s f = true →
  s ≠ "" ∧ node_at f (resolve (cwd f) s) = Some Dir.
Proof.
  unfold posix_isdir. destruct (decide (s = "")); [done|].
  destruct (too_long s); [done|].
  destruct (node_at f _) as [[|o]|]; by try done.
Qed.

Lemma posix_isdir_fits s f : posix_isdir s f = true → too_long s = false.
Proof.
  unfold posix_isdir. destruct (decide (s = "")); [done|].
  by destruct (too_long s).
Qed.

Lemma posix_isdir_intro s f :
  s ≠ "" → too_long s = false →
  node_at f (resolve (cwd f) s) = Some Dir →
  posix_isdir s f = true.
Proof.
  intros Hs Hl Hn. unfold posix_isdir.
  destruct (decide (s = "")); [done|]. by rewrite Hl, Hn.
Qed.

Lemma create_ok p n f f' : create p n f = inr f' → f' = set_node p n f.
Proof.
  unfold create. destruct (node_at f (removelast p)) as [[|o]|]; try done.
  by intros [= <-].
Qed.

Lemma posix_mkdir_ok s f f' :
  posix_mkdir s f = inr f' →
  s ≠ ""
  ∧ node_at f (resolve (cwd f) s) = None
  ∧ f' = set_node (resolve (cwd f) s) Dir f.
Proof.
  unfold posix_mkdir. destruct (decide (s = "")); [done|].
  destruct (too_long s); [done|].
  destruct (node_at f _) eqn:Hn; [done|].
  intros Hc. by apply create_ok in Hc.
Qed.

Lemma posix_mkdir_fits s f f' :
  posix_mkdir s f = inr f' → too_long s = false.
Proof.
  unfold posix_mkdir. destruct (decide (s = "")); [done|].
  by destruct (too_long s).
Qed.

Lemma posix_append_ok s text f f' :
  posix_append s text f = inr f' →
  s ≠ "" ∧ names_directory s = false
  ∧ resolve (cwd f) s ≠ []
  ∧ node_at f (resolve (cwd f) s) ≠ Some Dir
  ∧ f' = set_node (resolve (cwd f) s)
           (File (held f (resolve (cwd f) s) ++ list_byte_of_string text))
           f.
Proof.
  unfold posix_append, held. destruct (decide (s = "")); [done|].
  destruct (too_long s); [done|].
  destruct (names_directory s); [done|].
  destruct (resolve (cwd f) s) as [|c p] eqn:Hp; [done|].
  simpl. destruct (nodes f !! (c :: p)) as [[|o]|] eqn:Hn; [done| |].
  - by intros [= <-].
  - intros Hc. apply create_ok in Hc. by rewrite Hc.
Qed.

Lemma posix_append_fits s text f f' :
  posix_append s text f = inr f' → too_long s = false.
Proof.
  unfold posix_append. destruct (decide (s = "")); [done|].
  by destruct (too_long s).
Qed.

Lemma posix_append_existing s text f o :
  s ≠ "" → too_long s = false → names_directory s = false →
  node_at f (resolve (cwd f) s) = Some (File o) →
  posix_append s text f
  = inr (set_node (resolve (cwd f) s)
           (File (o ++ list_byte_of_string text)) f).
Proof.
  intros Hs Hl Hd Hn. unfold posix_append.
  destruct (decide (s = "")); [done|]. by rewrite Hl, Hd, Hn.
Qed.

(** Opening and then writing is appending: the open fails exactly when
    the append does, and after an open that went through the write goes
    through and leaves what the append leaves. *)
Lemma posix_open_write s text f :
  match posix_append s text f with
  | inl c => posix_open s f = inl c
  | inr f' => ∃ f1, posix_open s f = inr f1 ∧ posix_write s text f1 = inr f'
  end.
Proof.
  unfold posix_append, posix_open, posix_write.
  destruct (decide (s = "")); [done|]. destruct (too_long s); [done|].
  destruct (names_directory s); [done|].
  destruct (node_at f (resolve (cwd f) s)) as [[|o]|] eqn:Hn; [done| |].
  - exists f. by rewrite Hn.
  - unfold create. destruct (node_at f (removelast _)) as [[|o]|]; try done.
    eexists. split; [done|]. simpl.
    destruct (resolve (cwd f) s) as [|c p]; [done|]. simpl.
    rewrite lookup_insert_eq. simpl. unfold set_node. simpl.
    by rewrite insert_insert_eq.
Qed.

Lemma posix_write_after_open s text f f1 :
  posix_open s f = inr f1 → ∃ f2, posix_write s text f1 = inr f2.
Proof.
  intros Ho. pose proof (posix_open_write s text f) as H.
  destruct (posix_append s text f) as [c|f']; [congruence|].
  destruct H as (f1' & Ho' & Hw). exists f'. congruence.
Qed.

(** On the reference system the [with] statement is the append. *)
Lemma posix_append_text_eval (s text : string) w :
  append_text s text w
  = match posix_append s text (fs w) with
    | inl c => (inl (OSError c s), w)
    | inr f => (inr tt, push_event (EvAppend s text) (set_fs f w))
    end.
Proof.
  unfold append_text. simpl. pose proof (posix_open_write s text (fs w)) as H.
  destruct (posix_append s text (fs w)) as [c|f'].
  - by rewrite H.
  - destruct H as (f1 & -> & ->). done.
Qed.

(** Replaying an append, and replaying a write that failed: there is
    none on the reference system. *)
Lemma posix_replay_append (s text : string) (evs : list event) f :
  replay (EvAppend s text :: evs) f
  = match posix_append s text f with
    | inl _ => None
    | inr f' => replay evs f'
    end.
Proof.
  simpl. pose proof (posix_open_write s text f) as H.
  destruct (posix_append s text f) as [c|f'].
  - by rewrite H.
  - destruct H as (f1 & -> & ->). done.
Qed.

Lemma posix_replay_broken (s text : string) (evs : list event) f :
  replay (EvBroken s text :: evs) f = None.
Proof.
  simpl. destruct (posix_open s f) as [c|f1] eqn:Ho; [done|].
  by destruct (posix_write_after_open s text f f1 Ho) as [f2 ->].
Qed.
End Posix.

Section SameSecond.
Implicit Types (f : posix) (p q : list string) (w : @World posix).
Implicit Types (self : NullSMTPDHandler).

(** A pass that goes through leaves the recipient's directory in place
    and the record at the end of the file it names. *)
Lemma posix_pass_ok self sender data r w w' :
  handle_recipient self sender data r w = (inr tt, w') →
  let dir := os_path_join (mail_dir self) [r] in
  let path := (record_of self sender data (clock w (tick w)) r).1 in
  let p := resolve (cwd (fs w)) path in
  path ≠ "" ∧ names_directory path = false ∧ p ≠ []
  ∧ cwd (fs w') = cwd (fs w)
  ∧ posix_isdir dir (fs w') = true
  ∧ nodes (fs w') !! p
    = Some (File (held (fs w) p ++ list_byte_of_string (data +:+ LF)))
  ∧ tick w' = S (tick w) ∧ clock w' = clock w
  ∧ too_long path = false.
Proof.
  unfold handle_recipient, mbind, M_bind, bind, logger_info, time_time_int,
    isdir, mkdir, ret, record_of; simpl.
  destruct (posix_isdir _ (fs w)) eqn:Hd; simpl.
  - rewrite posix_append_text_eval. simpl.
    destruct (posix_append _ _ (fs w)) as [c|f2] eqn:Ha; simpl; [done|].
    pose proof (posix_append_fits _ _ _ _ Ha) as Hfit.
    apply posix_append_ok in Ha as (Hs & Hn & Hp & Hnd & ->).
    pose proof (posix_isdir_fits _ _ Hd) as Hdfit.
    apply posix_isdir_true in Hd as [Hds Hdn].
    assert (posix_isdir (join_step (mail_dir self) r)
              (set_node (resolve (cwd (fs w)) (join_step
                 (join_step (mail_dir self) r)
                 (format_mail_file (clock w (tick w)) sender
                    (file_extension self))))
                 (File (held (fs w) (resolve (cwd (fs w)) (join_step
                    (join_step (mail_dir self) r)
                    (format_mail_file (clock w (tick w)) sender
                       (file_extension self))))
                  ++ list_byte_of_string (data +:+ LF))) (fs w)) = true)
      as Hdir.
    { apply posix_isdir_intro; [done|done|]. simpl.
      destruct (resolve (cwd (fs w)) (join_step (mail_dir self) r))
        as [|c q] eqn:Hq; [done|].
      simpl in *. rewrite lookup_insert_ne; [done|]. intros Heq.
      rewrite Heq in Hnd. by rewrite node_at_nodes in Hnd. }
    destruct (print_messages self); intros [= <-]; simpl;
      by rewrite lookup_insert_eq.
  - destruct (posix_mkdir _ (fs w)) as [c|f1] eqn:Hm; simpl; [done|].
    pose proof (posix_mkdir_fits _ _ _ Hm) as Hdfit.
    apply posix_mkdir_ok in Hm as (Hds & Hdn & ->).
    rewrite posix_append_text_eval. simpl.
    destruct (posix_append _ _ _) as [c|f2] eqn:Ha; simpl; [done|].
    pose proof (posix_append_fits _ _ _ _ Ha) as Hfit.
    apply posix_append_ok in Ha as (Hs & Hn & Hp & Hnd & ->). simpl in *.
    set (q := resolve (cwd (fs w)) (join_step (mail_dir self) r)) in *.
    set (p := resolve (cwd (fs w)) (join_step
                 (join_step (mail_dir self) r)
                 (format_mail_file (clock w (tick w)) sender
                    (file_extension self)))) in *.
    assert (q ≠ []) as Hq.
    { intros Hq. by rewrite Hq in Hdn. }
    assert (q ≠ p) as Hqp.
    { intros Heq. rewrite <- Heq in Hnd. rewrite node_at_nodes in Hnd by done.
      simpl in Hnd. by rewrite lookup_insert_eq in Hnd. }
    assert (held (set_node q Dir (fs w)) p = held (fs w) p) as Hheld.
    { unfold held; simpl. by rewrite lookup_insert_ne. }
    assert (posix_isdir (join_step (mail_dir self) r)
              (set_node p (File (held (set_node q Dir (fs w)) p
                 ++ list_byte_of_string (data +:+ LF)))
                 (set_node q Dir (fs w))) = true) as Hdir.
    { apply posix_isdir_intro; [done|done|]. simpl. fold q.
      rewrite node_at_nodes by done. simpl.
      rewrite lookup_insert_ne by done. by rewrite lookup_insert_eq. }
    rewrite Hheld in Hdir.
    destruct (print_messages self); intros [= <-]; simpl;
      rewrite Hheld; by rewrite lookup_insert_eq.
Qed.

(** With the directory in place and the file there, a pass appends to
    the file. *)
Lemma posix_pass_existing self sender data r w o :
  let dir := os_path_join (mail_dir self) [r] in
  let path := (record_of self sender data (clock w (tick w)) r).1 in
  let p := resolve (cwd (fs w)) path in
  path ≠ "" → too_long path = false → names_directory path = false →
  p ≠ [] →
  posix_isdir dir (fs w) = true →
  nodes (fs w) !! p = Some (File o) →
  ∃ w', handle_recipient self sender data r w = (inr tt, w')
    ∧ nodes (fs w') !! p
      = Some (File (o ++ list_byte_of_string (data +:+ LF)))
    ∧ trace w' = trace w ++ [EvAppend path (data +:+ LF)].
Proof.
  simpl. intros Hs Hl Hn Hp Hd Hf.
  unfold handle_recipient, mbind, M_bind, bind, logger_info, time_time_int,
    isdir, mkdir, ret, record_of; simpl.
  rewrite Hd; simpl. rewrite posix_append_text_eval. simpl.
  rewrite (posix_append_existing _ _ _ o Hs Hl Hn).
  - destruct (print_messages self); eexists; (split; [done|]); simpl;
      by rewrite lookup_insert_eq.
  - by rewrite node_at_nodes.
Qed.

Lemma deliver_one self sender data r w :
  deliver self sender data [r] w
  = match handle_recipient self sender data r w with
    | (inl e, w') => (inl e, w')
    | (inr _, w') => (inr tt, w')
    end.
Proof.
  unfold deliver; simpl. unfold bind, ret.
  by destruct (handle_recipient _ _ _ _ _) as [[e|[]] w'].
Qed.

(** C4.  Two calls for the same sender and the same single recipient,
    with the same extension, whose clock readings fall in the same
    second: when the first has gone through, the second goes through as
    well and appends to the same path; the file then holds what it held
    before, the first body and a line feed, the second body and a line
    feed, in that order. *)
Theorem same_second_records_accumulate self (sender r : string)
    (b1 b2 : list byte) w reply w1 :
  utf8_check 0 b2 = None →
  clock w (S (tick w)) = clock w (tick w) →
  handle_DATA self {| mail_from := sender; rcpt_tos := [r]; content := b1 |}
    w = (inr reply, w1) →
  let path :=
    os_path_join (mail_dir self)
      [r; format_mail_file (clock w (tick w)) sender (file_extension self)] in
  let p := resolve (cwd (fs w)) path in
  ∃ w2,
    handle_DATA self
      {| mail_from := sender; rcpt_tos := [r]; content := b2 |} w1
    = (inr "250 OK", w2)
    ∧ (∃ evs, after w evs w1
         ∧ appends evs = [(path, string_of_list_byte b1 +:+ LF)])
    ∧ trace w2 = trace w1 ++ [EvAppend path (string_of_list_byte b2 +:+ LF)]
    ∧ nodes (fs w1) !! p = Some (File (held (fs w) p ++ b1 ++ [Byte.x0a]))
    ∧ nodes (fs w2) !! p
      = Some (File (held (fs w) p ++ (b1 ++ [Byte.x0a])
                    ++ (b2 ++ [Byte.x0a]))).
Proof.
  intros Hu2 Hsame. rewrite handle_DATA_eval. simpl.
  destruct (utf8_check 0 b1); [done|]. rewrite deliver_one.
  destruct (handle_recipient _ _ _ _ _) as [[e|[]] w1'] eqn:H1; [done|].
  intros [= _ ->].
  destruct (handle_recipient_spec _ _ _ _ _ _ _ H1) as (_ & evs & Hev & Happ).
  apply posix_pass_ok in H1 as (Hs & Hn & Hp & Hcwd & Hdir & Hf & Ht & Hc & Hfit).
  simpl in *.
  destruct (posix_pass_existing self sender (string_of_list_byte b2) r
              (announced sender w1)
              (held (fs w) (resolve (cwd (fs w))
                 (join_step (join_step (mail_dir self) r)
                    (format_mail_file (clock w (tick w)) sender
                       (file_extension self))))
               ++ list_byte_of_string (string_of_list_byte b1 +:+ LF)))
    as (w2 & H2 & Hf2 & Ht2); simpl;
    rewrite ?Hc, ?Ht, ?Hsame, ?Hcwd; try done.
  simpl in H2, Hf2, Ht2. rewrite Hc, Ht, Hsame, Hcwd in Hf2.
  rewrite Hc, Ht, Hsame in Ht2.
  exists w2. rewrite handle_DATA_eval. simpl. rewrite Hu2, deliver_one, H2.
  split; [done|]. split; [exists evs; split; [exact Hev|exact Happ]|].
  split; [done|].
  rewrite record_bytes in Hf, Hf2. rewrite Hf, Hf2, record_bytes.
  by rewrite <- !app_assoc.
Qed.
End SameSecond.

(** ** The properties on the sample data *)

Lemma run_result {A B : Type} (x : A * B) (a : A) : x.1 = a → x = (a, x.2).
Proof. destruct x as [a' b]; simpl. by intros ->. Qed.

Lemma one_record_per_recipient_witness :
  handle_DATA handler0 env_two (world_of disk0)
  = (inr "250 OK", (handle_DATA handler0 env_two (world_of disk0)).2)
  ∧ ∃ evs,
      after (world_of disk0) evs
        (handle_DATA handler0 env_two (world_of disk0)).2
      ∧ length (appends evs) = 2%nat
      ∧ ∃ text,
          appends evs !! 1%nat
          = Some ("/var/mail/dave@example.com/1700000000.alice@example.com.eml",
                  text)
          ∧ list_byte_of_string text = bytes_of "hello" ++ [Byte.x0a].
Proof.
  assert (handle_DATA handler0 env_two (world_of disk0)
          = (inr "250 OK", (handle_DATA handler0 env_two (world_of disk0)).2))
    as Hrun by (apply run_result; vm_compute; reflexivity).
  split; [exact Hrun|].
  destruct (one_record_per_recipient handler0 env_two (world_of disk0)
              "250 OK" _ Hrun) as (evs & Ha & Hl & Hrec).
  exists evs. split; [exact Ha|]. split; [exact Hl|].
  destruct (Hrec 1%nat dave eq_refl) as (path & text & Hp & -> & Hb & _).
  exists text. split; [exact Hp|exact Hb].
Defined.

(** C1, as stated, fails: the record of an absolute recipient is not
    under the mail directory, and after the pass for [bob] has raised
    neither [bob] nor [carol] has a record. *)
Lemma records_missing_and_misplaced :
  (handle_DATA handler0 env_escape (world_of disk0)).1
  = inl (OSError EEXIST "/var/mail/bob")
  ∧ appends (trace (handle_DATA handler0 env_escape (world_of disk0)).2)
    = [("/tmp/x@evil/1700000000.alice@example.com.eml", "hello" +:+ LF)]
  ∧ length (rcpt_tos env_escape) = 3%nat
  ∧ ¬ inside [] (mail_dir handler0)
        "/tmp/x@evil/1700000000.alice@example.com.eml"
  ∧ nodes (fs (handle_DATA handler0 env_escape (world_of disk0)).2)
    !! ["var"; "mail"; carol] = None.
Proof.
  split; [(vm_compute; reflexivity)|]. split; [(vm_compute; reflexivity)|]. split; [done|].
  split; [|(vm_compute; reflexivity)].
  unfold inside. vm_compute. by intros [k [=]].
Qed.



Lemma reply_only_after_all_records_witness :
  (∃ evs,
     after (world_of disk0) evs
       (handle_DATA handler0 env_two (world_of disk0)).2
     ∧ appends evs
       = expected_appends handler0 (mail_from env_two)
           (string_of_list_byte (content env_two))
           (clock (world_of disk0)) (tick (world_of disk0))
           (rcpt_tos env_two))
  ∧ ∃ e' w', handle_DATA handler0 env_blocked (world_of disk0) = (inl e', w').
Proof.
  destruct (reply_only_after_all_records handler0 env_two (world_of disk0))
    as [Hok _].
  destruct (reply_only_after_all_records handler0 env_blocked (world_of disk0))
    as [_ Hfail].
  split.
  - apply (Hok "250 OK" (handle_DATA handler0 env_two (world_of disk0)).2).
    apply run_result; vm_compute; reflexivity.
  - apply (Hfail [carol] "bob" [dave] (OSError EEXIST "/var/mail/bob")
             world_after_carol
             (handle_recipient handler0 "alice@example.com" "hello" "bob"
                world_after_carol).2);
      [reflexivity
      |unfold world_after_carol; apply run_result; vm_compute; reflexivity
      |apply run_result; vm_compute; reflexivity].
Defined.

Lemma same_second_records_accumulate_witness :
  ∃ w2,
    handle_DATA handler0
      {| mail_from := "alice@example.com"; rcpt_tos := [carol];
         content := bytes_of "two" |}
      (handle_DATA handler0 (envelope_to [carol] "one") (world_of disk0)).2
    = (inr "250 OK", w2)
    ∧ nodes (fs w2)
      !! ["var"; "mail"; carol; "1700000000.alice@example.com.eml"]
      = Some (File (bytes_of ("one" +:+ LF +:+ "two" +:+ LF))).
Proof.
  destruct (same_second_records_accumulate handler0 "alice@example.com" carol
              (bytes_of "one") (bytes_of "two") (world_of disk0) "250 OK"
              (handle_DATA handler0 (envelope_to [carol] "one")
                 (world_of disk0)).2)
    as (w2 & H2 & _ & _ & _ & Hf);
    [reflexivity|reflexivity|apply run_result; vm_compute; reflexivity|].
  exists w2. split; [exact H2|]. exact Hf.
Defined.


(** So does a recipient that climbs out with [..]: the record lies
    under [/var], beside the mail directory. *)
Lemma dotdot_recipient_escapes :
  (handle_DATA handler0 (envelope_to ["../x@evil"] "hello")
     (world_of disk0)).1 = inr "250 OK"
  ∧ trace (handle_DATA handler0 (envelope_to ["../x@evil"] "hello")
             (world_of disk0)).2
    = [EvMkdir "/var/mail/../x@evil";
       EvAppend "/var/mail/../x@evil/1700000000.alice@example.com.eml"
         ("hello" +:+ LF)]
  ∧ nodes (fs (handle_DATA handler0 (envelope_to ["../x@evil"] "hello")
                 (world_of disk0)).2)
    !! ["var"; "x@evil"; "1700000000.alice@example.com.eml"]
    = Some (File (bytes_of ("hello" +:+ LF)))
  ∧ ¬ inside [] (mail_dir handler0)
        "/var/mail/../x@evil/1700000000.alice@example.com.eml".
Proof.
  split; [(vm_compute; reflexivity)|]. split; [(vm_compute; reflexivity)|].
  split; [(vm_compute; reflexivity)|].
  unfold inside; vm_compute; by intros [k [=]].
Qed.

Lemma no_record_without_directory_witness :
  os_path_isdir (os_path_join (mail_dir handler0) ["bob"])
    (fs world_after_carol) = false
  ∧ os_mkdir (os_path_join (mail_dir handler0) ["bob"])
      (fs world_after_carol) = inl EEXIST
  ∧ ∃ w2,
      handle_DATA handler0 env_blocked (world_of disk0)
      = (inl (OSError EEXIST (os_path_join (mail_dir handler0) ["bob"])), w2)
      ∧ fs w2 = fs world_after_carol
      ∧ trace w2 = trace world_after_carol.
Proof.
  split; [(vm_compute; reflexivity)|]. split; [(vm_compute; reflexivity)|].
  apply (no_record_without_directory handler0 env_blocked (world_of disk0)
           [carol] "bob" [dave] EEXIST world_after_carol);
    [reflexivity|reflexivity
    |unfold world_after_carol; apply run_result; vm_compute; reflexivity
    |vm_compute; reflexivity|vm_compute; reflexivity].
Defined.

Lemma unusable_mail_dir_stops_startup_witness :
  (∃ msg, __init__ PyNone (PyBool true) "eml" (world_of disk0)
          = (inl (SystemExit msg), push_log ERROR msg (world_of disk0)))
  ∧ __init__ (PyStr "/srv/none/mail") (PyBool true) "eml" (world_of disk0)
    = (inl (OSError ENOENT "/srv/none/mail"),
       push_log ERROR (str_of_oserror ENOENT "/srv/none/mail")
         (world_of disk0))
  ∧ ∃ w0 self w1,
      before_handler quiet_logging "1.0" args0 (world_of disk0)
      = (inr tt, w0)
      ∧ __init__ (PyStr (args_mail_dir args0)) (PyBool (args_no_fork args0))
          (args_file_extension args0) w0 = (inr self, w1).
Proof.
  destruct (unusable_mail_dir_stops_startup (FS := posix) quiet_logging "1.0")
    as (Ha & Hb & _ & Hd).
  split; [|split].
  - apply Ha. by intros s.
  - apply Hb; (vm_compute; reflexivity).
  - apply Hd. vm_compute. discriminate.
Defined.

Lemma invalid_body_has_no_effect_witness :
  utf8_check 0 (content env_binary) = Some 0%nat
  ∧ handle_DATA handler0 env_binary (world_of disk0)
    = (inl (UnicodeDecodeError 0), world_of disk0).
Proof.
  split; [reflexivity|].
  apply (invalid_body_has_no_effect handler0 env_binary (world_of disk0) 0).
  reflexivity.
Defined.

Lemma extension_has_no_leading_dot_witness :
  ∃ self,
    (__init__ (PyStr "/var/mail") (PyBool true) "..eml" (world_of disk0)).1
    = inr self
    ∧ file_extension self = "eml"
    ∧ ∀ rest, file_extension self ≠ String "." rest.
Proof.
  destruct (__init__ (PyStr "/var/mail") (PyBool true) "..eml"
              (world_of disk0)) as [[e|self] w1] eqn:Hi;
    [vm_compute in Hi; discriminate|].
  exists self. split; [done|].
  destruct (extension_has_no_leading_dot _ _ _ _ _ _ Hi)
    as (Hx & _ & Hd & _).
  split; [by rewrite Hx|exact Hd].
Defined.

(** * Further properties of [handle_DATA] *)

Section Outcomes.
Context {FS : Type} `{!OS FS}.
Implicit Types (w : @World FS) (self : NullSMTPDHandler).

(** Everything a pass leaves behind besides the file system. *)
Lemma handle_recipient_frame self sender data r w res w' :
  handle_recipient self sender data r w = (res, w') →
  tick w' = S (tick w) ∧ clock w' = clock w ∧ fork_pid w' = fork_pid w
  ∧ listening w' = listening w
  ∧ match res with
    | inr _ => log w' = log w ++ pass_log self data r
    | inl e => log w' = log w ++ [(INFO, "Mail received for " +:+ r)]
    end.
Proof.
  unfold pass_log. pass_cases w; repeat split; by rewrite <- ?app_assoc.
Qed.

Lemma deliver_frame self sender data rcpts w res w' :
  deliver self sender data rcpts w = (res, w') →
  clock w' = clock w ∧ fork_pid w' = fork_pid w
  ∧ listening w' = listening w
  ∧ match res with
    | inr _ =>
        tick w' = (tick w + length rcpts)%nat
        ∧ log w' = log w ++ flat_map (pass_log self data) rcpts
    | inl e => (tick w ≤ tick w' ≤ tick w + length rcpts)%nat
    end.
Proof.
  unfold deliver. revert w; induction rcpts as [|r rs IH]; intros w; simpl.
  - intros [= <- <-]. repeat split; [lia|by rewrite app_nil_r].
  - unfold bind.
    destruct (handle_recipient self sender data r w) as [[e|[]] w1] eqn:Hr;
      apply handle_recipient_frame in Hr as (Ht & Hc & Hf & Hl & Hr).
    + intros [= <- <-].
      split; [done|]. split; [done|]. split; [done|]. lia.
    + intros Hrest. apply IH in Hrest as (Hc' & Hf' & Hl' & Hrest).
      split; [congruence|]. split; [congruence|]. split; [congruence|].
      destruct res as [e|u].
      * lia.
      * destruct Hrest as [Ht' Hlog]. split; [lia|].
        rewrite Hlog, Hr. unfold pass_log. by rewrite <- app_assoc.
Qed.


(** X2.  A call that answers has logged, after what the log held, the
    line for the sender and then, recipient by recipient in the order of
    the list, the line for the recipient followed by the body when the
    handler prints messages, and nothing else. *)
Theorem log_of_a_delivered_mail self env w reply w' :
  handle_DATA self env w = (inr reply, w') →
  log w'
  = log w ++ expected_log self (mail_from env)
               (string_of_list_byte (content env)) (rcpt_tos env).
Proof.
  rewrite handle_DATA_eval. destruct (utf8_check 0 (content env)); [done|].
  destruct (deliver _ _ _ _ _) as [[e|u] w1] eqn:Hd; [done|].
  intros [= <- <-]. apply deliver_frame in Hd as (_ & _ & _ & _ & Hlog).
  rewrite Hlog. unfold expected_log. simpl. by rewrite <- app_assoc.
Qed.

(** X3.  A call reads the clock once for every recipient it gets to, so
    exactly [n] times for [n] recipients when it answers, and never
    touches the listener or the clock itself. *)
Theorem one_clock_reading_per_recipient self env w :
  clock (handle_DATA self env w).2 = clock w
  ∧ listening (handle_DATA self env w).2 = listening w
  ∧ (tick w ≤ tick (handle_DATA self env w).2
     ≤ tick w + length (rcpt_tos env))%nat
  ∧ match (handle_DATA self env w).1 with
    | inr _ =>
        tick (handle_DATA self env w).2
        = (tick w + length (rcpt_tos env))%nat
    | inl _ => True
    end.
Proof.
  rewrite handle_DATA_eval. destruct (utf8_check 0 (content env)).
  { simpl. repeat split; lia. }
  destruct (deliver _ _ _ _ _) as [[e|u] w1] eqn:Hd.
  - apply deliver_frame in Hd as (Hc & _ & Hl & Ht).
    simpl in *. repeat split; try done; lia.
  - apply deliver_frame in Hd as (Hc & _ & Hl & Ht & _).
    simpl in *. repeat split; try done; lia.
Qed.
End Outcomes.

Section Decoding.
Context {FS : Type} `{!OS FS}.
Implicit Types (w : @World FS) (self : NullSMTPDHandler).

Lemma utf8_check_ascii (bs : list byte) (n : nat) :
  Forall (λ b, is_ascii b = true) bs → utf8_check n bs = None.
Proof.
  intros Hbs. revert n. induction Hbs as [|b bs Hb _ IH]; intros n; [done|].
  simpl. unfold is_ascii in Hb. by rewrite Hb.
Qed.

(** X4.  A body made of ASCII bytes always decodes: [handle_DATA] never
    raises [UnicodeDecodeError] for it. *)
Theorem ascii_body_always_decodes self env w :
  Forall (λ b, is_ascii b = true) (content env) →
  utf8_check 0 (content env) = None
  ∧ ∀ i, (handle_DATA self env w).1 ≠ inl (UnicodeDecodeError i).
Proof.
  intros Hbs. pose proof (utf8_check_ascii _ 0 Hbs) as Hu.
  split; [done|]. intros i. rewrite handle_DATA_eval, Hu.
  destruct (deliver _ _ _ _ _) as [[e|u] w1] eqn:Hd; [|done].
  by apply deliver_spec in Hd as (_ & _ & [(c & f & ->)|(c & ->)] & _).
Qed.

Lemma handle_recipient_absolute self dir sender data r w :
  startswith_sep r = true →
  handle_recipient (with_mail_dir dir self) sender data r w
  = handle_recipient self sender data r w.
Proof.
  intros Hr.
  assert (∀ d, join_step d r = r) as Hj.
  { intros d. unfold join_step. by rewrite Hr. }
  unfold handle_recipient, os_path_join; simpl. by rewrite !Hj.
Qed.

(** X5.  When every recipient is absolute the mail directory plays no
    part: the call does the same, and leaves the same world, whatever
    mail directory the handler has. *)
Theorem absolute_recipients_ignore_mail_dir self dir env w :
  Forall (λ r, startswith_sep r = true) (rcpt_tos env) →
  handle_DATA (with_mail_dir dir self) env w = handle_DATA self env w.
Proof.
  intros Hr. rewrite !handle_DATA_eval.
  destruct (utf8_check 0 (content env)); [done|].
  assert (∀ w0, deliver (with_mail_dir dir self) (mail_from env)
                  (string_of_list_byte (content env)) (rcpt_tos env) w0
                = deliver self (mail_from env)
                    (string_of_list_byte (content env)) (rcpt_tos env) w0)
    as ->; [|done].
  unfold deliver. induction Hr as [|r rs Hr _ IH]; intros w0; simpl; [done|].
  unfold bind. rewrite handle_recipient_absolute by done.
  by destruct (handle_recipient _ _ _ _ _) as [[e|[]] w1].
Qed.
End Decoding.

Section FileNames.
Implicit Types (a b c : string).

Lemma string_app_inv_head a b c : a +:+ b = a +:+ c → b = c.
Proof.
  induction a as [|x a IH]; [done|]. rewrite !string_app_cons.
  intros [= Heq]. by apply IH.
Qed.

Lemma string_length_app a b :
  String.length (a +:+ b) = (String.length a + String.length b)%nat.
Proof.
  induction a as [|x a IH]; [done|]. rewrite string_app_cons. simpl.
  by rewrite IH.
Qed.

Lemma string_app_inv_tail a b c : a +:+ c = b +:+ c → a = b.
Proof.
  revert b; induction a as [|x a IH]; intros [|y b]; try done.
  - intros Heq. apply (f_equal String.length) in Heq.
    rewrite string_app_nil_l, string_app_cons in Heq. simpl in Heq.
    rewrite string_length_app in Heq. lia.
  - intros Heq. apply (f_equal String.length) in Heq.
    rewrite string_app_nil_l, string_app_cons in Heq. simpl in Heq.
    rewrite string_length_app in Heq. lia.
  - rewrite !string_app_cons. intros [= -> Heq]. f_equal. by apply IH.
Qed.

Lemma join_step_inj a b c :
  startswith_sep b = false → startswith_sep c = false →
  join_step a b = join_step a c → b = c.
Proof.
  intros Hb Hc. unfold join_step. rewrite Hb, Hc.
  destruct (if decide (a = "") then true else endswith_sep a).
  - apply string_app_inv_head.
  - intros Heq. apply string_app_inv_head in Heq.
    by apply string_app_inv_head in Heq.
Qed.

Lemma dot_free_split (a b x y : string) :
  mem_char "." a = false → mem_char "." b = false →
  a +:+ "." +:+ x = b +:+ "." +:+ y → a = b ∧ x = y.
Proof.
  revert b; induction a as [|c a IH]; intros [|d b]; simpl;
    rewrite ?string_app_cons, ?string_app_nil_l.
  - by intros _ _ [= ->].
  - destruct (decide ("."%char = d)) as [<-|Hd]; [done|]. by intros _ _ [= ?].
  - destruct (decide ("."%char = c)) as [<-|Hc]; [done|]. by intros _ _ [= ?].
  - destruct (decide ("."%char = c)) as [<-|Hc]; [done|].
    destruct (decide ("."%char = d)) as [<-|Hd]; [done|].
    intros Ha Hb [= -> Heq]. destruct (IH b Ha Hb Heq) as [-> ->]. done.
Qed.

(** X6.  The file name tells records apart: for the same mail
    directory, recipient and extension, two records have the same path
    only when they are for the same second and the same sender. *)
Theorem other_second_other_file self (s1 s2 d1 d2 r : string) (t1 t2 : Z) :
  (record_of self s1 d1 t1 r).1 = (record_of self s2 d2 t2 r).1 →
  t1 = t2 ∧ s1 = s2.
Proof.
  unfold record_of, os_path_join; simpl. intros Heq.
  apply join_step_inj in Heq; try apply mail_file_relative.
  unfold format_mail_file in Heq.
  destruct (pretty_Z_plain "." t1) as [H1 _]; [by right|].
  destruct (pretty_Z_plain "." t2) as [H2 _]; [by right|].
  apply dot_free_split in Heq as [Ht Hs]; [|done|done].
  split; [by apply (inj pretty)|]. by apply string_app_inv_tail in Hs.
Qed.
End FileNames.

(** * Further properties of the start-up and the shut-down *)

Section StartupMore.
Context {FS : Type} `{!OS FS}.
Implicit Types (w : @World FS) (self : NullSMTPDHandler).

(** X7.  A constructor that returns was given a string for [mail_dir],
    keeps it, prints messages exactly when [output_messages] is the
    object [True], logs the directory and the extension, and touches the
    file system in one way only: it creates the mail directory when it is
    not there. *)
Theorem constructor_builds_handler v om ext w self w' :
  __init__ v om ext w = (inr self, w') →
  v = PyStr (mail_dir self)
  ∧ print_messages self = is_True om
  ∧ log w'
    = log w ++ [(INFO, "Mail Directory: " +:+ mail_dir self);
                (INFO, "File Extension: ." +:+ file_extension self)]
  ∧ ((os_path_isdir (mail_dir self) (fs w) = true
      ∧ fs w' = fs w ∧ trace w' = trace w)
     ∨ (os_path_isdir (mail_dir self) (fs w) = false
        ∧ os_mkdir (mail_dir self) (fs w) = inr (fs w')
        ∧ trace w' = trace w ++ [EvMkdir (mail_dir self)])).
Proof.
  unfold __init__, mbind, M_bind, bind, isdir, mkdir, logger_info,
    logger_error, raise, ret.
  destruct v as [| | |dir]; simpl; try done.
  destruct (os_path_isdir dir (fs w)) eqn:Hd; simpl.
  - intros [= <- <-]. simpl. rewrite <- app_assoc. repeat split. by left.
  - destruct (os_mkdir dir (fs w)) eqn:Hm; simpl; [done|].
    intros [= <- <-]. simpl. rewrite <- app_assoc. repeat split. by right.
Qed.

Lemma lstrip_dots (k : nat) (ext : string) :
  lstrip "." (dots k +:+ ext) = lstrip "." ext.
Proof. induction k as [|k IH]; [done|]. by rewrite <- IH. Qed.

(** X8.  Dots put in front of the extension make no difference: the
    constructor returns the same handler and leaves the same world for
    [eml], [.eml] and [..eml]. *)
Theorem leading_dots_make_no_difference v om (k : nat) ext w :
  __init__ v om (dots k +:+ ext) w = __init__ v om ext w.
Proof. unfold __init__. by rewrite lstrip_dots. Qed.

Section WithLogger.
Variable configure_logging : string → bool → FS → exn + FS.
Variable version : string.

(** X9.  In the parent of the fork (the call is asked to fork and
    [os.fork()] returns a child's pid) [main] raises: nothing is logged
    and nothing listens; with the mail directory in place it raises
    [SystemExit('Could not fork nullsmtpd')] and leaves the world as it
    was. *)
Theorem parent_process_exits args w :
  args_no_fork args = false →
  fork_pid w ≠ 0 →
  ∃ e w',
    main configure_logging version args w = (inl e, w')
    ∧ log w' = log w
    ∧ listening w' = listening w
    ∧ (os_path_isdir (args_mail_dir args) (fs w) = true →
       e = SystemExit "Could not fork nullsmtpd" ∧ w' = w).
Proof.
  intros Hn Hp. unfold main.
  set (init := __init__ _ _ _). clearbody init.
  unfold mbind, M_bind, bind, isdir, mkdir, os_fork, raise, ret. simpl.
  rewrite Hn. simpl.
  destruct (os_path_isdir _ (fs w)); simpl.
  - destruct (decide (fork_pid w ≠ 0)); [|done]. simpl. by eexists _, _.
  - destruct (os_mkdir _ (fs w)); simpl; [by eexists _, _|].
    destruct (decide (fork_pid w ≠ 0)); [|done]. simpl. by eexists _, _.
Qed.

(** X10.  The start-up goes through when the mail directory is there,
    the process is not the parent of a fork, setting up logging succeeds
    and leaves the mail directory in place, and the host and port asked
    for can be bound: [main] then makes no file-system call of its own,
    logs the start, the directory and the extension, and the controller
    listens on that host and port. *)
Theorem startup_succeeds args w f :
  os_path_isdir (args_mail_dir args) (fs w) = true →
  args_no_fork args = true ∨ fork_pid w = 0 →
  configure_logging (args_mail_dir args) (args_no_fork args) (fs w) = inr f →
  os_path_isdir (args_mail_dir args) f = true →
  os_listen (args_host args) (args_port args) f = None →
  ∃ w',
    main configure_logging version args w = (inr tt, w')
    ∧ listening w' = Some (args_host args, args_port args)
    ∧ fs w' = f
    ∧ trace w' = trace w
    ∧ log w'
      = log w
        ++ [(INFO, "Starting nullsmtpd " +:+ version +:+ " on "
                   +:+ args_host args +:+ ":" +:+ pretty (args_port args));
            (INFO, "Mail Directory: " +:+ args_mail_dir args);
            (INFO, "File Extension: ."
                   +:+ lstrip "." (args_file_extension args))].
Proof.
  intros Hd Hf Hc Hd' Hl.
  unfold main, __init__, mbind, M_bind, bind, isdir, mkdir, os_fork,
    run_configure_logging, logger_info, raise, ret, controller_start. simpl.
  rewrite Hd. simpl.
  destruct (args_no_fork args) eqn:Hn; simpl.
  - rewrite Hc. simpl. rewrite Hd'. simpl. rewrite Hl.
    eexists. split; [done|]. simpl. by rewrite <- !app_assoc.
  - destruct Hf as [?|Hz]; [done|].
    destruct (decide (fork_pid w ≠ 0)); [done|]. simpl.
    rewrite Hc. simpl. rewrite Hd'. simpl. rewrite Hl.
    eexists. split; [done|]. simpl. by rewrite <- !app_assoc.
Qed.

(** X17.  When the mail directory is missing and cannot be made, [main]
    raises the creation error at its first step: it does not fork, does
    not set up logging, logs nothing and starts nothing. *)
Theorem main_stops_without_mail_dir args w c :
  os_path_isdir (args_mail_dir args) (fs w) = false →
  os_mkdir (args_mail_dir args) (fs w) = inl c →
  main configure_logging version args w
  = (inl (OSError c (args_mail_dir args)), w).
Proof.
  intros Hd Hm. unfold main.
  set (init := __init__ _ _ _). clearbody init.
  unfold mbind, M_bind, bind, isdir, mkdir. simpl. rewrite Hd. simpl.
  by rewrite Hm.
Qed.

(** X18.  When the mail directory is missing and can be made, [main]
    makes it, once: with the process not the parent of a fork, a
    logging set-up that goes through and leaves the directory in place,
    and a host and port that can be bound, the constructor finds the
    directory, the only file-system call of the start-up is that one
    [mkdir], and the controller listens. *)
Theorem startup_creates_mail_dir args w f1 f2 :
  os_path_isdir (args_mail_dir args) (fs w) = false →
  os_mkdir (args_mail_dir args) (fs w) = inr f1 →
  args_no_fork args = true ∨ fork_pid w = 0 →
  configure_logging (args_mail_dir args) (args_no_fork args) f1 = inr f2 →
  os_path_isdir (args_mail_dir args) f2 = true →
  os_listen (args_host args) (args_port args) f2 = None →
  ∃ w',
    main configure_logging version args w = (inr tt, w')
    ∧ listening w' = Some (args_host args, args_port args)
    ∧ fs w' = f2
    ∧ trace w' = trace w ++ [EvMkdir (args_mail_dir args)].
Proof.
  intros Hd Hm Hf Hc Hd' Hl.
  unfold main, __init__, mbind, M_bind, bind, isdir, mkdir, os_fork,
    run_configure_logging, logger_info, raise, ret, controller_start. simpl.
  rewrite Hd. simpl. rewrite Hm. simpl.
  destruct (args_no_fork args) eqn:Hn; simpl.
  - rewrite Hc. simpl. rewrite Hd'. simpl. rewrite Hl. by eexists.
  - destruct Hf as [?|Hz]; [done|].
    destruct (decide (fork_pid w ≠ 0)); [done|]. simpl.
    rewrite Hc. simpl. rewrite Hd'. simpl. rewrite Hl. by eexists.
Qed.

(** X11.  Once the start-up has gone through, however the event loop
    ends the shut-down runs: 'Stopping nullsmtpd' is the last line of
    the log and nothing listens any more; a [KeyboardInterrupt] is passed
    over, anything else raised out of the loop is raised by [main].  When
    the start-up raises there is no shut-down. *)
Theorem shutdown_always_runs
    (run_forever : @World FS → loop_end * @World FS) args w :
  (∀ w0,
     main configure_logging version args w = (inr tt, w0) →
     let r := main_program configure_logging version run_forever args w in
     listening r.2 = None
     ∧ log r.2 = log (run_forever w0).2 ++ [(INFO, "Stopping nullsmtpd")]
     ∧ fs r.2 = fs (run_forever w0).2
     ∧ r.1 = match (run_forever w0).1 with
             | LoopRaised e => inl e
             | LoopStopped | KeyboardInterrupt => inr tt
             end)
  ∧ (∀ e w0,
       main configure_logging version args w = (inl e, w0) →
       main_program configure_logging version run_forever args w
       = (inl e, w0)).
Proof.
  split.
  - intros w0 Hm. simpl. unfold main_program, bind. rewrite Hm.
    unfold serve, bind, logger_info, controller_stop. simpl.
    by destruct (run_forever w0).1.
  - intros e w0 Hm. unfold main_program, bind. by rewrite Hm.
Qed.
End WithLogger.
End StartupMore.

Section PosixStartup.
Implicit Types (w : @World posix) (self : NullSMTPDHandler).

(** X12.  On the reference file system, a constructor that returns
    leaves the mail directory in place: it is a directory afterwards,
    whether it was there or has just been made. *)
Theorem mail_dir_exists_after_construction v om ext w self w' :
  __init__ v om ext w = (inr self, w') →
  posix_isdir (mail_dir self) (fs w') = true.
Proof.
  unfold __init__, mbind, M_bind, bind, isdir, mkdir, logger_info,
    logger_error, raise, ret.
  destruct v as [| | |dir]; simpl; try done.
  destruct (posix_isdir dir (fs w)) eqn:Hd; simpl.
  - by intros [= <- <-].
  - destruct (posix_mkdir dir (fs w)) as [c|f] eqn:Hm; simpl; [done|].
    intros [= <- <-]. simpl.
    pose proof (posix_mkdir_fits _ _ _ Hm) as Hfit.
    apply posix_mkdir_ok in Hm as (Hs & Hn & ->).
    apply posix_isdir_intro; [done|done|]. simpl.
    destruct (resolve (cwd (fs w)) dir) as [|c q] eqn:Hq; [done|].
    simpl. by rewrite lookup_insert_eq.
Qed.
End PosixStartup.

(** * Further properties on the reference file system *)

Section Utf8.
Implicit Types (bs : list byte) (n m : nat).

(** Whether bytes are well formed does not depend on the offset they are
    counted from. *)
Lemma utf8_check_offset_bounded (k : nat) bs n m :
  (length bs ≤ k)%nat → utf8_check n bs = None → utf8_check m bs = None.
Proof.
  revert bs n m. induction k as [|k IH]; intros bs n m Hk.
  { destruct bs; [done|simpl in Hk; lia]. }
  destruct bs as [|b0 r0]; [done|]. cbn [utf8_check]. simpl in Hk.
  destruct (in_range 0 127 b0); [apply IH; lia|].
  destruct r0 as [|b1 r1]; [done|]. simpl in Hk.
  destruct (seq2_ok b0 b1); [apply IH; lia|].
  destruct r1 as [|b2 r2]; [done|]. simpl in Hk.
  destruct (seq3_ok b0 b1 b2); [apply IH; lia|].
  destruct r2 as [|b3 r3]; [done|]. simpl in Hk.
  destruct (seq4_ok b0 b1 b2 b3); [apply IH; lia|done].
Qed.

Lemma utf8_check_offset bs n m :
  utf8_check n bs = None → utf8_check m bs = None.
Proof. by apply (utf8_check_offset_bounded (length bs)). Qed.

Lemma utf8_check_app_bounded (k : nat) bs (cs : list byte) n :
  (length bs ≤ k)%nat →
  utf8_check n bs = None → utf8_check 0 cs = None →
  utf8_check n (bs ++ cs) = None.
Proof.
  revert bs n. induction k as [|k IH]; intros bs n Hk.
  { destruct bs; [|simpl in Hk; lia]. intros _. apply utf8_check_offset. }
  destruct bs as [|b0 r0]; [intros _; apply utf8_check_offset|].
  rewrite <- app_comm_cons. cbn [utf8_check]. simpl in Hk.
  destruct (in_range 0 127 b0); [apply IH; lia|].
  destruct r0 as [|b1 r1]; [done|]. rewrite <- app_comm_cons. simpl in Hk.
  destruct (seq2_ok b0 b1); [apply IH; lia|].
  destruct r1 as [|b2 r2]; [done|]. rewrite <- app_comm_cons. simpl in Hk.
  destruct (seq3_ok b0 b1 b2); [apply IH; lia|].
  destruct r2 as [|b3 r3]; [done|]. rewrite <- app_comm_cons. simpl in Hk.
  destruct (seq4_ok b0 b1 b2 b3); [apply IH; lia|done].
Qed.

(** Well-formed bytes after well-formed bytes are well formed. *)
Lemma utf8_check_app bs (cs : list byte) :
  utf8_check 0 bs = None → utf8_check 0 cs = None →
  utf8_check 0 (bs ++ cs) = None.
Proof. by apply (utf8_check_app_bounded (length bs)). Qed.
End Utf8.

Section Keeping.
Implicit Types (f : posix) (p q : list string) (w : @World posix).
Implicit Types (self : NullSMTPDHandler).

Lemma grows_refl f : grows f f.
Proof.
  split; [done|]. intros p. destruct (nodes f !! p) as [[|o]|]; try done.
  exists []. by rewrite app_nil_r.
Qed.

Lemma grows_trans f1 f2 f3 : grows f1 f2 → grows f2 f3 → grows f1 f3.
Proof.
  intros [C1 G1] [C2 G2]. split; [congruence|]. intros p.
  specialize (G1 p). specialize (G2 p).
  destruct (nodes f1 !! p) as [[|o]|]; [| |done].
  - by rewrite G1 in G2.
  - destruct G1 as [x G1]. rewrite G1 in G2. destruct G2 as [y G2].
    exists (x ++ y). by rewrite app_assoc.
Qed.

Lemma posix_mkdir_grows s f f' : posix_mkdir s f = inr f' → grows f f'.
Proof.
  intros (Hs & Hn & ->)%posix_mkdir_ok. split; [done|]. intros p. simpl.
  destruct (decide (resolve (cwd f) s = p)) as [<-|Hne].
  - destruct (resolve (cwd f) s) as [|c q]; [done|]. simpl in Hn.
    by rewrite Hn.
  - rewrite lookup_insert_ne by done.
    destruct (nodes f !! p) as [[|o]|]; try done.
    exists []. by rewrite app_nil_r.
Qed.

Lemma posix_append_grows s text f f' :
  posix_append s text f = inr f' → grows f f'.
Proof.
  intros (Hs & Hn & Hp & Hnd & ->)%posix_append_ok. split; [done|].
  intros p. simpl.
  destruct (decide (resolve (cwd f) s = p)) as [<-|Hne].
  - rewrite lookup_insert_eq. rewrite node_at_nodes in Hnd by done.
    unfold held. destruct (nodes f !! resolve (cwd f) s) as [[|o]|];
      [done| |done]. by eexists.
  - rewrite lookup_insert_ne by done.
    destruct (nodes f !! p) as [[|o]|]; try done.
    exists []. by rewrite app_nil_r.
Qed.

Lemma replay_grows (evs : list event) f f' :
  replay evs f = Some f' → grows f f'.
Proof.
  revert f; induction evs as [|[s|s text|s text] evs IH]; intros f.
  - intros [= ->]. apply grows_refl.
  - simpl. destruct (posix_mkdir s f) as [c|f1] eqn:Hm; [done|]. intros Hr.
    eapply grows_trans; [by eapply posix_mkdir_grows|by apply IH].
  - rewrite posix_replay_append.
    destruct (posix_append s text f) as [c|f1] eqn:Ha; [done|]. intros Hr.
    eapply grows_trans; [by eapply posix_append_grows|by apply IH].
  - by rewrite posix_replay_broken.
Qed.

(** The file-system calls of any call, with what they did and what they
    are. *)
Lemma handle_DATA_after {FS : Type} `{!OS FS} self env (w : @World FS) :
  ∃ evs, after w evs (handle_DATA self env w).2
    ∧ Forall (λ ev, utf8_check 0 (content env) = None
                ∧ ∃ r, r ∈ rcpt_tos env
                    ∧ event_of self (mail_from env)
                        (string_of_list_byte (content env)) r ev) evs.
Proof.
  rewrite handle_DATA_eval. destruct (utf8_check 0 (content env)) eqn:Hu.
  { exists []. split; [apply after_refl|done]. }
  destruct (deliver _ _ _ _ _) as [[e|u] w1] eqn:Hd;
    pose proof Hd as Hd';
    apply deliver_spec in Hd as (evs & Ha & _);
    apply deliver_events in Hd' as (evs' & Ht & Hev);
    destruct Ha as (Ht' & Hrest); simpl in *;
    rewrite Ht in Ht'; apply app_inv_head in Ht' as ->;
    (exists evs; split; [by split|]);
    (eapply Forall_impl; [exact Hev|]); by intros ev ?.
Qed.

(** X13.  A call only adds: whether it answers or raises, every
    directory is still a directory afterwards and every file still
    begins with what it held; nothing is removed, truncated or
    rewritten. *)
Theorem handle_DATA_only_adds self env w :
  grows (fs w) (fs (handle_DATA self env w).2).
Proof.
  destruct (handle_DATA_after self env w) as (evs & (_ & Hr & _) & _).
  by apply replay_grows in Hr.
Qed.

Lemma posix_append_text s text f f' :
  posix_append s text f = inr f' →
  utf8_check 0 (list_byte_of_string text) = None →
  all_text f → all_text f'.
Proof.
  intros (Hs & Hn & Hp & Hnd & ->)%posix_append_ok Ht Hf p o. simpl.
  destruct (decide (resolve (cwd f) s = p)) as [<-|Hne].
  - rewrite lookup_insert_eq. intros [= <-]. apply utf8_check_app; [|done].
    unfold held. destruct (nodes f !! resolve (cwd f) s) as [[|o]|] eqn:Ho;
      try done. by eapply Hf.
  - rewrite lookup_insert_ne by done. apply Hf.
Qed.

Lemma posix_mkdir_text s f f' :
  posix_mkdir s f = inr f' → all_text f → all_text f'.
Proof.
  intros (Hs & Hn & ->)%posix_mkdir_ok Hf p o. simpl.
  destruct (decide (resolve (cwd f) s = p)) as [<-|Hne].
  - by rewrite lookup_insert_eq.
  - rewrite lookup_insert_ne by done. apply Hf.
Qed.

(** X14.  A store of text stays a store of text: when every file holds
    well-formed UTF-8 before a call, every file does after it, whether
    the call answers or raises. *)
Theorem store_stays_text self env w :
  all_text (fs w) → all_text (fs (handle_DATA self env w).2).
Proof.
  destruct (handle_DATA_after self env w) as (evs & (_ & Hr & _) & Hev).
  revert Hr. generalize (fs (handle_DATA self env w).2) as f'.
  generalize (fs w) as f.
  induction Hev as [|ev evs (Hu & r & _ & Hof) _ IH]; intros f f'.
  - by intros [= ->].
  - destruct Hof as [-> | [[t ->] | [t ->]]].
    + simpl. destruct (posix_mkdir _ f) as [c|f1] eqn:Hm; [done|].
      intros Hr Hf. eapply IH; [done|]. by eapply posix_mkdir_text.
    + rewrite posix_replay_append.
      destruct (posix_append _ _ f) as [c|f1] eqn:Ha; [done|]. intros Hr Hf.
      eapply IH; [done|]. eapply posix_append_text; [done| |done].
      rewrite record_bytes. by apply utf8_check_app.
    + by rewrite posix_replay_broken.
Qed.



End Keeping.

Section Delivery.
Implicit Types (f : posix) (m p q : list string) (w : @World posix).
Implicit Types (self : NullSMTPDHandler) (r s : string).

Lemma no_sep_relative r : no_sep r = true → startswith_sep r = false.
Proof.
  unfold no_sep. destruct r as [|c r]; [done|]. simpl.
  destruct (decide ("/"%char = c)) as [<-|Hc]; [done|]. intros _.
  by repeat case_match.
Qed.

Lemma walk_plain m r : plain_name r → walk m r = m ++ [r].
Proof. intros (_ & ? & ? & ?). unfold walk. by repeat case_decide. Qed.

Lemma resolve_join_plain d (a : string) r :
  plain_name r → resolve d (join_step a r) = resolve d a ++ [r].
Proof.
  intros Hr. pose proof Hr as (Hs & _).
  rewrite resolve_join_step by by apply no_sep_relative.
  rewrite split_sep_no_sep by done. simpl. by apply walk_plain.
Qed.

Lemma join_step_nonempty (a b : string) : b ≠ "" → join_step a b ≠ "".
Proof.
  intros Hb. unfold join_step. destruct (startswith_sep b); [done|].
  destruct (if decide (a = "") then true else endswith_sep a);
    destruct a; try done; by destruct b.
Qed.

Lemma names_directory_join (a : string) r :
  plain_name r → names_directory (join_step a r) = false.
Proof.
  intros (Hs & Hn & Hd & Hdd).
  assert (last (split_sep (join_step a r)) = Some r) as Hl.
  { unfold join_step. rewrite (no_sep_relative r Hs).
    destruct (decide (a = "")) as [->|Ha].
    { by rewrite string_app_nil_l, split_sep_no_sep. }
    destruct (endswith_sep a) eqn:He.
    - destruct (endswith_sep_app a He) as [a' ->].
      rewrite string_app_assoc, split_sep_app, (split_sep_no_sep r) by done.
      apply last_snoc.
    - rewrite split_sep_app, (split_sep_no_sep r) by done. apply last_snoc. }
  unfold names_directory. rewrite Hl.
  destruct (decide (r = "" ∨ r = "." ∨ r = "..")) as [[?|[?|?]]|]; done.
Qed.

Lemma mail_file_plain (t : Z) (sender ext : string) :
  no_sep sender = true → no_sep ext = true →
  plain_name (format_mail_file t sender ext).
Proof.
  intros Hs He. unfold plain_name, no_sep, format_mail_file in *.
  apply negb_true_iff in Hs, He.
  destruct (pretty_Z_plain "/" t) as [Hp _]; [by left|].
  destruct (pretty_Z_plain "." t) as [Hd Hn]; [by right|].
  split; [by rewrite !mem_char_app, Hp, Hs, He|].
  destruct (pretty t) as [|c s]; [done|]. rewrite string_app_cons.
  simpl in Hd. destruct (decide ("."%char = c)) as [<-|Hc]; [done|].
  repeat split; congruence.
Qed.

Lemma ready_tail f m sender ext (clk : nat → Z) (n : nat) r
    (rcpts : list string) :
  ready f m sender ext clk n (r :: rcpts) →
  ready f m sender ext clk (S n) rcpts.
Proof.
  intros Hr i r' Hi. specialize (Hr (S i) r' Hi).
  by rewrite Nat.add_succ_r in Hr.
Qed.

Lemma fits_tail self sender (clk : nat → Z) (n : nat) r
    (rcpts : list string) :
  fits self sender clk n (r :: rcpts) → fits self sender clk (S n) rcpts.
Proof.
  intros Hr i r' Hi. specialize (Hr (S i) r' Hi).
  by rewrite Nat.add_succ_r in Hr.
Qed.

Lemma ready_set_dir f m sender ext (clk : nat → Z) (n : nat)
    (rcpts : list string) r :
  ready f m sender ext clk n rcpts →
  ready (set_node (m ++ [r]) Dir f) m sender ext clk n rcpts.
Proof.
  intros Hr i r' Hi. destruct (Hr i r' Hi) as [Hf Hd]. simpl. split.
  - intros o. destruct (decide (m ++ [r] = m ++ [r'])) as [<-|Hne].
    + by rewrite lookup_insert_eq.
    + rewrite lookup_insert_ne by done. apply Hf.
  - rewrite lookup_insert_ne; [apply Hd|].
    intros Heq. apply (f_equal length) in Heq.
    rewrite !length_app in Heq. simpl in Heq. lia.
Qed.

Lemma ready_set_file f m sender ext (clk : nat → Z) (n : nat)
    (rcpts : list string) r x (o : list byte) :
  ready f m sender ext clk n rcpts →
  ready (set_node (m ++ [r; x]) (File o) f) m sender ext clk n rcpts.
Proof.
  intros Hr i r' Hi. destruct (Hr i r' Hi) as [Hf Hd]. simpl. split.
  - intros o'. rewrite lookup_insert_ne; [apply Hf|].
    intros Heq. apply (f_equal length) in Heq.
    rewrite !length_app in Heq. simpl in Heq. lia.
  - set (y := format_mail_file _ _ _) in *.
    destruct (decide (m ++ [r; x] = m ++ [r'; y])) as [<-|Hne].
    + by rewrite lookup_insert_eq.
    + by rewrite lookup_insert_ne.
Qed.

Lemma node_at_set_below f m q (n : node) :
  (length m < length q)%nat → node_at (set_node q n f) m = node_at f m.
Proof.
  intros Hl. destruct m as [|c m]; [done|]. simpl.
  rewrite lookup_insert_ne; [done|]. intros ->. lia.
Qed.

(** The directory of a recipient is there, or is made. *)
Lemma posix_dir_step f m r s :
  node_at f m = Some Dir →
  (∀ o, nodes f !! (m ++ [r]) ≠ Some (File o)) →
  s ≠ "" → too_long s = false →
  resolve (cwd f) s = m ++ [r] →
  (posix_isdir s f = true ∧ nodes f !! (m ++ [r]) = Some Dir)
  ∨ (posix_isdir s f = false
     ∧ posix_mkdir s f = inr (set_node (m ++ [r]) Dir f)).
Proof.
  intros Hm Hnf Hs Hl Hres.
  assert (m ++ [r] ≠ []) as Hne by by destruct m.
  unfold posix_isdir, posix_mkdir. destruct (decide (s = "")); [done|].
  rewrite Hl, Hres, node_at_nodes by done.
  destruct (nodes f !! (m ++ [r])) as [[|o]|] eqn:Hn.
  - by left.
  - by destruct (Hnf o).
  - right. split; [done|]. unfold create. by rewrite removelast_last, Hm.
Qed.

(** With the directory in place the record is appended. *)
Lemma posix_file_step f m r x s text :
  nodes f !! (m ++ [r]) = Some Dir →
  nodes f !! (m ++ [r; x]) ≠ Some Dir →
  s ≠ "" → too_long s = false → names_directory s = false →
  resolve (cwd f) s = m ++ [r; x] →
  ∃ o, posix_append s text f = inr (set_node (m ++ [r; x]) (File o) f).
Proof.
  intros Hdir Hnd Hs Hl Hn Hres.
  assert (m ++ [r; x] ≠ []) as Hne by by destruct m.
  unfold posix_append. destruct (decide (s = "")); [done|].
  rewrite Hl, Hn, Hres, node_at_nodes by done.
  destruct (nodes f !! (m ++ [r; x])) as [[|o]|] eqn:Hx.
  - done.
  - by eexists.
  - eexists. unfold create.
    replace (m ++ [r; x]) with ((m ++ [r]) ++ [x]) by by rewrite <- app_assoc.
    rewrite removelast_last, node_at_nodes by by destruct m.
    by rewrite Hdir.
Qed.

Lemma posix_pass_succeeds self sender data r (rcpts : list string) w :
  let m := resolve (cwd (fs w)) (mail_dir self) in
  posix_isdir (mail_dir self) (fs w) = true →
  ready (fs w) m sender (file_extension self) (clock w) (tick w)
    (r :: rcpts) →
  fits self sender (clock w) (tick w) (r :: rcpts) →
  plain_name r →
  no_sep sender = true → no_sep (file_extension self) = true →
  ∃ w', handle_recipient self sender data r w = (inr tt, w')
    ∧ cwd (fs w') = cwd (fs w)
    ∧ clock w' = clock w ∧ tick w' = S (tick w)
    ∧ posix_isdir (mail_dir self) (fs w') = true
    ∧ ready (fs w') m sender (file_extension self) (clock w) (S (tick w))
        rcpts.
Proof.
  intros m Hmd Hready Hfits Hr Hs He.
  set (file := format_mail_file (clock w (tick w)) sender
                 (file_extension self)).
  set (dir := join_step (mail_dir self) r).
  assert (plain_name file) as Hfile by by apply mail_file_plain.
  pose proof (posix_isdir_fits _ _ Hmd) as Hml.
  apply posix_isdir_true in Hmd as [Hmd Hmn]. fold m in Hmn.
  destruct (Hready 0%nat r eq_refl) as [Hnf Hnd].
  destruct (Hfits 0%nat r eq_refl) as [Hfd Hfp].
  rewrite Nat.add_0_r in Hnd, Hfp.
  change (too_long dir = false) in Hfd.
  change (too_long (join_step dir file) = false) in Hfp. fold file in Hnd.
  assert (∃ f1,
            ((posix_isdir dir (fs w) = true ∧ f1 = fs w)
             ∨ (posix_isdir dir (fs w) = false
                ∧ posix_mkdir dir (fs w) = inr f1))
            ∧ nodes f1 !! (m ++ [r]) = Some Dir
            ∧ nodes f1 !! (m ++ [r; file]) ≠ Some Dir
            ∧ cwd f1 = cwd (fs w)
            ∧ node_at f1 m = Some Dir
            ∧ ready f1 m sender (file_extension self) (clock w)
                (S (tick w)) rcpts)
    as (f1 & Hcase & Hdir & Hnd1 & Hc1 & Hm1 & Hready1).
  { destruct (posix_dir_step (fs w) m r dir)
      as [[Hd Hdir]|[Hd Hm]]; try done.
    - apply join_step_nonempty. by destruct Hr as (_ & ? & _).
    - by apply resolve_join_plain.
    - exists (fs w). split; [by left|]. do 4 (split; [done|]).
      by eapply ready_tail.
    - eexists. split; [by right|]. simpl.
      split; [by rewrite lookup_insert_eq|].
      split.
      { rewrite lookup_insert_ne; [done|]. intros Heq.
        apply (f_equal length) in Heq. rewrite !length_app in Heq.
        simpl in Heq. lia. }
      split; [done|].
      split; [rewrite node_at_set_below; [done|];
              rewrite length_app; simpl; lia|].
      apply ready_set_dir. by eapply ready_tail. }
  destruct (posix_file_step f1 m r file (join_step dir file) (data +:+ LF))
    as (o & Ha); try done.
  { apply join_step_nonempty. by destruct Hfile as (_ & ? & _). }
  { by apply names_directory_join. }
  { unfold dir. rewrite Hc1, !resolve_join_plain by done. fold m.
    by rewrite <- app_assoc. }
  assert (posix_isdir (mail_dir self)
            (set_node (m ++ [r; file]) (File o) f1) = true) as Hkeep.
  { apply posix_isdir_intro; [done|done|]. simpl. rewrite Hc1. fold m.
    rewrite node_at_set_below; [done|]. rewrite length_app; simpl; lia. }
  unfold handle_recipient, mbind, M_bind, bind, logger_info, time_time_int,
    isdir, mkdir, ret; simpl. fold file. fold dir.
  destruct Hcase as [[Hd ->] | [Hd Hm]].
  - rewrite Hd. simpl. rewrite posix_append_text_eval. simpl. rewrite Ha.
    simpl.
    destruct (print_messages self); eexists; (split; [done|]); simpl;
      do 4 (split; [done|]); by apply ready_set_file.
  - rewrite Hd. simpl. rewrite Hm. simpl.
    rewrite posix_append_text_eval. simpl. rewrite Ha. simpl.
    destruct (print_messages self); eexists; (split; [done|]); simpl;
      do 4 (split; [done|]); by apply ready_set_file.
Qed.

Lemma posix_deliver_succeeds self sender data (rcpts : list string) w :
  posix_isdir (mail_dir self) (fs w) = true →
  ready (fs w) (resolve (cwd (fs w)) (mail_dir self)) sender
    (file_extension self) (clock w) (tick w) rcpts →
  fits self sender (clock w) (tick w) rcpts →
  Forall plain_name rcpts →
  no_sep sender = true → no_sep (file_extension self) = true →
  ∃ w', deliver self sender data rcpts w = (inr tt, w').
Proof.
  intros Hmd Hready Hfits Hrs Hs He. unfold deliver.
  revert w Hmd Hready Hfits.
  induction Hrs as [|r rs Hr _ IH]; intros w Hmd Hready Hfits; simpl;
    [by eexists|].
  destruct (posix_pass_succeeds self sender data r rs w)
    as (w1 & Hpass & Hc & Hk & Ht & Hmd1 & Hready1); try done.
  unfold bind. rewrite Hpass. apply IH; [done| |].
  - by rewrite Hc, Hk, Ht.
  - rewrite Hk, Ht. by eapply fits_tail.
Qed.

(** X15.  The persistence step goes through on the reference file
    system whenever nothing stands in its way: no string that goes into
    a path holds a NUL character, the body is well-formed UTF-8, the
    mail directory is there, every recipient is a plain name, neither
    the sender nor the extension holds a ["/"], the directory and the
    record path of every recipient are within the lengths the system
    accepts, no regular file has the name of a recipient's directory and
    no directory has the name of a recipient's record.  The call then
    answers ['250 OK']. *)
Theorem persistence_goes_through self env w :
  nul_free self env = true →
  utf8_check 0 (content env) = None →
  posix_isdir (mail_dir self) (fs w) = true →
  Forall plain_name (rcpt_tos env) →
  no_sep (mail_from env) = true →
  no_sep (file_extension self) = true →
  fits self (mail_from env) (clock w) (tick w) (rcpt_tos env) →
  ready (fs w) (resolve (cwd (fs w)) (mail_dir self)) (mail_from env)
    (file_extension self) (clock w) (tick w) (rcpt_tos env) →
  (handle_DATA self env w).1 = inr "250 OK".
Proof.
  intros _ Hu Hmd Hrs Hs He Hfits Hready. rewrite handle_DATA_eval, Hu.
  destruct (posix_deliver_succeeds self (mail_from env)
              (string_of_list_byte (content env)) (rcpt_tos env)
              (announced (mail_from env) w))
    as (w' & ->); done.
Qed.

(** X16.  A recipient named twice gets the body twice: when both
    passes read the same second, a call for [r, r] that answers leaves
    one file, holding what it held before and then the body and a line
    feed two times over. *)
Theorem duplicate_recipient_gets_two_copies self (sender r : string)
    (body : list byte) w reply w' :
  clock w (S (tick w)) = clock w (tick w) →
  handle_DATA self
    {| mail_from := sender; rcpt_tos := [r; r]; content := body |} w
  = (inr reply, w') →
  let p :=
    resolve (cwd (fs w))
      (os_path_join (mail_dir self)
         [r; format_mail_file (clock w (tick w)) sender
               (file_extension self)]) in
  nodes (fs w') !! p
  = Some (File (held (fs w) p ++ (body ++ [Byte.x0a])
                ++ (body ++ [Byte.x0a]))).
Proof.
  intros Hsame. rewrite handle_DATA_eval. simpl.
  destruct (utf8_check 0 body); [done|]. unfold deliver. simpl.
  unfold bind, ret.
  destruct (handle_recipient _ _ _ _ _) as [[e|[]] w1] eqn:H1; [done|].
  destruct (handle_recipient _ _ _ _ w1) as [[e|[]] w2] eqn:H2; [done|].
  intros [= _ <-].
  apply posix_pass_ok in H1 as (_ & _ & _ & Hc1 & _ & Hf1 & Ht1 & Hk1 & _).
  apply posix_pass_ok in H2 as (_ & _ & _ & _ & _ & Hf2 & _).
  simpl in *. rewrite Hk1, Ht1, Hsame, Hc1 in Hf2. rewrite Hf2.
  unfold held at 1. rewrite Hf1. by rewrite !record_bytes, <- app_assoc.
Qed.
End Delivery.

(** ** The further properties on the sample data *)

Lemma log_of_a_delivered_mail_witness :
  log (handle_DATA handler0 env_two (world_of disk0)).2
  = [(INFO, "Incoming mail from alice@example.com");
     (INFO, "Mail received for carol@example.com");
     (INFO, "Mail received for dave@example.com")].
Proof.
  apply (log_of_a_delivered_mail handler0 env_two (world_of disk0) "250 OK").
  apply run_result; vm_compute; reflexivity.
Defined.

Lemma ascii_body_always_decodes_witness :
  utf8_check 0 (content env_two) = None
  ∧ ∀ i, (handle_DATA handler0 env_two (world_of disk0)).1
         ≠ inl (UnicodeDecodeError i).
Proof.
  apply (ascii_body_always_decodes handler0 env_two (world_of disk0)).
  apply (bool_decide_unpack
           (Forall (λ b, is_ascii b = true) (content env_two))).
  vm_compute. exact I.
Defined.

Lemma absolute_recipients_ignore_mail_dir_witness :
  handle_DATA (with_mail_dir "/srv/elsewhere" handler0) env_absolute
    (world_of disk0)
  = handle_DATA handler0 env_absolute (world_of disk0).
Proof.
  apply (absolute_recipients_ignore_mail_dir handler0 "/srv/elsewhere"
           env_absolute (world_of disk0)).
  apply (bool_decide_unpack
           (Forall (λ r, startswith_sep r = true) (rcpt_tos env_absolute))).
  vm_compute. exact I.
Defined.

Lemma other_second_other_file_witness :
  (1700000000 : Z) = 1700000000 ∧ "alice@example.com" = "alice@example.com".
Proof.
  apply (other_second_other_file handler0 "alice@example.com"
           "alice@example.com" "hello" "bye" carol 1700000000 1700000000).
  reflexivity.
Defined.

Lemma constructor_builds_handler_witness :
  ∃ self w',
    __init__ (PyStr "/var/mail") (PyInt 1) ".eml" (world_of disk0)
    = (inr self, w')
    ∧ mail_dir self = "/var/mail"
    ∧ print_messages self = false
    ∧ log w' = [(INFO, "Mail Directory: /var/mail");
                (INFO, "File Extension: .eml")].
Proof.
  destruct (__init__ (PyStr "/var/mail") (PyInt 1) ".eml" (world_of disk0))
    as [[e|self] w'] eqn:Hi; [vm_compute in Hi; discriminate|].
  exists self, w'. split; [done|].
  destruct (constructor_builds_handler _ _ _ _ _ _ Hi)
    as (Hv & Hp & Hl & _).
  injection Hv as Hv. split; [done|]. split; [done|].
  rewrite Hl, <- Hv.
  assert (file_extension self = "eml") as ->; [|done].
  vm_compute in Hi. by injection Hi as <- _.
Defined.

Lemma parent_process_exits_witness :
  main quiet_logging "1.0" args_daemon world_parent
  = (inl (SystemExit "Could not fork nullsmtpd"), world_parent).
Proof.
  destruct (parent_process_exits quiet_logging "1.0" args_daemon world_parent)
    as (e & w' & Hm & _ & _ & He); [reflexivity|done|].
  destruct He as [-> ->]; [vm_compute; reflexivity|]. exact Hm.
Defined.

Lemma startup_succeeds_witness :
  ∃ w',
    main quiet_logging "1.0" args0 (world_of disk0) = (inr tt, w')
    ∧ listening w' = Some ("localhost", 25)
    ∧ log w'
      = [(INFO, "Starting nullsmtpd 1.0 on localhost:25");
         (INFO, "Mail Directory: /var/mail");
         (INFO, "File Extension: .eml")].
Proof.
  destruct (startup_succeeds quiet_logging "1.0" args0 (world_of disk0) disk0)
    as (w' & Hm & Hl & _ & _ & Hlog);
    [vm_compute; reflexivity|by left|reflexivity|vm_compute; reflexivity
    |reflexivity|].
  exists w'. split; [exact Hm|]. split; [exact Hl|]. rewrite Hlog.
  vm_compute. reflexivity.
Defined.

Lemma shutdown_always_runs_witness :
  listening
    (main_program quiet_logging "1.0" loop_interrupted args0
       (world_of disk0)).2 = None
  ∧ (main_program quiet_logging "1.0" loop_interrupted args0
       (world_of disk0)).1 = inr tt.
Proof.
  destruct (shutdown_always_runs quiet_logging "1.0" loop_interrupted args0
              (world_of disk0)) as [Hrun _].
  destruct (Hrun (main quiet_logging "1.0" args0 (world_of disk0)).2)
    as (Hl & _ & _ & Hr); [apply run_result; vm_compute; reflexivity|].
  split; [exact Hl|exact Hr].
Defined.

Lemma mail_dir_exists_after_construction_witness :
  ∃ self w',
    __init__ (PyStr "/var/mail/new") (PyBool true) "eml" (world_of disk0)
    = (inr self, w')
    ∧ posix_isdir "/var/mail/new" (fs (world_of disk0)) = false
    ∧ posix_isdir (mail_dir self) (fs w') = true.
Proof.
  destruct (__init__ (PyStr "/var/mail/new") (PyBool true) "eml"
              (world_of disk0)) as [[e|self] w'] eqn:Hi;
    [vm_compute in Hi; discriminate|].
  exists self, w'. split; [done|]. split; [vm_compute; reflexivity|].
  exact (mail_dir_exists_after_construction _ _ _ _ _ _ Hi).
Defined.

Lemma disk0_all_text : all_text disk0.
Proof.
  intros p o. unfold disk0. simpl.
  rewrite !lookup_insert, lookup_empty.
  repeat case_decide; try done. by intros [= <-].
Qed.

Lemma store_stays_text_witness :
  all_text (fs (handle_DATA handler0 env_two (world_of disk0)).2).
Proof.
  apply (store_stays_text handler0 env_two (world_of disk0)).
  exact disk0_all_text.
Defined.

Lemma disk0_ready :
  ready disk0 ["var"; "mail"] "alice@example.com" "eml"
    (clock (world_of disk0)) 0 [carol; dave].
Proof.
  intros i r Hi.
  assert (r = carol ∨ r = dave) as Hr.
  { destruct i as [|[|i]]; simpl in Hi; [left|right|done]; congruence. }
  unfold disk0. simpl. rewrite !lookup_insert, lookup_empty. split.
  - intros o. destruct Hr as [->| ->]; repeat case_decide; done.
  - repeat case_decide; done.
Qed.

Lemma disk0_fits :
  fits handler0 "alice@example.com" (clock (world_of disk0)) 0 [carol; dave].
Proof.
  intros i r Hi.
  destruct i as [|[|i]]; simpl in Hi; [| |done];
    injection Hi as <-; split; vm_compute; reflexivity.
Qed.

Lemma persistence_goes_through_witness :
  (handle_DATA handler0 env_two (world_of disk0)).1 = inr "250 OK".
Proof.
  apply (persistence_goes_through handler0 env_two (world_of disk0)).
  - reflexivity.
  - reflexivity.
  - vm_compute; reflexivity.
  - apply (bool_decide_unpack (Forall plain_name (rcpt_tos env_two))).
    vm_compute. exact I.
  - reflexivity.
  - reflexivity.
  - exact disk0_fits.
  - exact disk0_ready.
Defined.

Lemma duplicate_recipient_gets_two_copies_witness :
  nodes (fs (handle_DATA handler0 env_twice (world_of disk0)).2)
  !! ["var"; "mail"; carol; "1700000000.alice@example.com.eml"]
  = Some (File (bytes_of ("hello" +:+ LF +:+ "hello" +:+ LF))).
Proof.
  apply (duplicate_recipient_gets_two_copies handler0 "alice@example.com"
           carol (bytes_of "hello") (world_of disk0) "250 OK").
  - reflexivity.
  - apply run_result; vm_compute; reflexivity.
Defined.

Lemma main_stops_without_mail_dir_witness :
  main quiet_logging "1.0"
    {| args_no_fork := true; args_host := "localhost"; args_port := 25;
       args_mail_dir := "/var/mail/bob"; args_file_extension := "eml" |}
    (world_of disk0)
  = (inl (OSError EEXIST "/var/mail/bob"), world_of disk0).
Proof.
  apply (main_stops_without_mail_dir quiet_logging "1.0"
           {| args_no_fork := true; args_host := "localhost";
              args_port := 25; args_mail_dir := "/var/mail/bob";
              args_file_extension := "eml" |} (world_of disk0) EEXIST);
    vm_compute; reflexivity.
Defined.

Lemma startup_creates_mail_dir_witness :
  ∃ w',
    main quiet_logging "1.0"
      {| args_no_fork := true; args_host := "localhost"; args_port := 25;
         args_mail_dir := "/tmp/mail"; args_file_extension := "eml" |}
      (world_of disk0) = (inr tt, w')
    ∧ listening w' = Some ("localhost", 25)
    ∧ trace w' = [EvMkdir "/tmp/mail"].
Proof.
  destruct (startup_creates_mail_dir quiet_logging "1.0"
              {| args_no_fork := true; args_host := "localhost";
                 args_port := 25; args_mail_dir := "/tmp/mail";
                 args_file_extension := "eml" |} (world_of disk0)
              (set_node ["tmp"; "mail"] Dir disk0)
              (set_node ["tmp"; "mail"] Dir disk0))
    as (w' & Hm & Hl & _ & Ht);
    [vm_compute; reflexivity|reflexivity|by left|reflexivity
    |vm_compute; reflexivity|reflexivity|].
  exists w'. split; [exact Hm|]. split; [exact Hl|exact Ht].
Defined.


Lemma records_follow_recipient_order_witness :
  (∃ evs,
     after (world_of disk0) evs
       (handle_DATA handler0 env_two (world_of disk0)).2
     ∧ appends evs
       = [("/var/mail/carol@example.com/1700000000.alice@example.com.eml",
           "hello" +:+ LF);
          ("/var/mail/dave@example.com/1700000000.alice@example.com.eml",
           "hello" +:+ LF)])
  ∧ (∃ evs,
       after (world_of disk0) evs
         (handle_DATA handler0 env_blocked (world_of disk0)).2
       ∧ appends evs
         = [("/var/mail/carol@example.com/1700000000.alice@example.com.eml",
             "hello" +:+ LF)]
       ∧ handle_recipient handler0 "alice@example.com" "hello" "bob"
           world_after_carol
         = (inl (OSError EEXIST "/var/mail/bob"),
            (handle_DATA handler0 env_blocked (world_of disk0)).2)).
Proof.
  split.
  - destruct (records_follow_recipient_order handler0 env_two
                (world_of disk0)) as (evs & k & Ha & Happ & Hk).
    assert ((handle_DATA handler0 env_two (world_of disk0)).1
            = inr "250 OK") as Hrun by (vm_compute; reflexivity).
    rewrite Hrun in Hk. rewrite Hk in Happ.
    exists evs. split; [exact Ha|]. rewrite Happ. vm_compute. reflexivity.
  - destruct (records_follow_recipient_order handler0 env_blocked
                (world_of disk0)) as (evs & k & Ha & Happ & Hk).
    assert ((handle_DATA handler0 env_blocked (world_of disk0)).1
            = inl (OSError EEXIST "/var/mail/bob")) as Hrun
      by (vm_compute; reflexivity).
    rewrite Hrun in Hk.
    destruct Hk as [(_ & i & _ & [=])|(_ & Hlt & r & w1 & Hr & Hpre & Hstep)].
    assert (k = 1%nat) as ->.
    { destruct k as [|[|[|k]]]; [| |  |simpl in Hlt; lia].
      - injection Hr as <-. unfold deliver in Hpre. simpl in Hpre.
        injection Hpre as <-. apply (f_equal fst) in Hstep. vm_compute in Hstep. discriminate.
      - reflexivity.
      - injection Hr as <-. apply (f_equal fst) in Hpre.
        vm_compute in Hpre. discriminate. }
    injection Hr as <-.
    assert (w1 = world_after_carol) as ->.
    { apply (f_equal snd) in Hpre. simpl in Hpre. subst w1. reflexivity. }
    exists evs. split; [exact Ha|]. split; [|exact Hstep].
    rewrite Happ. vm_compute. reflexivity.
Defined.


(** The call of that example does write, below the mail directory. *)
Lemma plain_recipients_records :
  trace (handle_DATA handler0 env_two (world_of disk0)).2
  = [EvMkdir "/var/mail/carol@example.com";
     EvAppend "/var/mail/carol@example.com/1700000000.alice@example.com.eml"
       ("hello" +:+ LF);
     EvMkdir "/var/mail/dave@example.com";
     EvAppend "/var/mail/dave@example.com/1700000000.alice@example.com.eml"
       ("hello" +:+ LF)]
  ∧ nodes (fs (handle_DATA handler0 env_two (world_of disk0)).2)
    !! ["var"; "mail"; carol; "1700000000.alice@example.com.eml"]
    = Some (File (bytes_of ("hello" +:+ LF)))
  ∧ nodes disk0
    !! ["var"; "mail"; carol; "1700000000.alice@example.com.eml"] = None.
Proof. repeat split; vm_compute; reflexivity. Qed.
